(** * react-fluid-table: the list-layout core of [src/Table.tsx]

    A shallow embedding of [ListComponent]: row keys, row heights, the
    size-cache invalidation protocol, the two debounced resize reactions
    and teardown.  Pixel quantities are integers ([Z]); a JavaScript
    number that may be [NaN] is an [option Z]; [undefined] and [null] are
    [None]. *)

From Stdlib Require Import ZArith Lia String.
From stdpp Require Import base option list gmap strings.

Local Open Scope Z_scope.

(** ** Values *)

(** [Text] of the package's typings: [string | number]. *)
Inductive Text :=
| TextStr (s : string)
| TextNum (n : Z).

(** The part of a DOM element the component reads.  [dataset_index] is
    what [parseInt(el.dataset.index)] evaluates to: [None] is [NaN]
    (attribute missing or not numeric). *)
#[warnings="-register-all"]
Inductive Element := mkElement {
  offsetHeight : Z;
  scrollWidth : Z;
  clientWidth : Z;
  dataset_index : option Z;
  children : list Element
}.

(** [tableRef.current]: the list's inner element with its parent. *)
Record TableNode := mkTableNode {
  node : Element;
  parentElement : option Element
}.

(** [NO_PARENT = { parentElement: { scrollWidth: 0, clientWidth: 0 } }]. *)
Definition NO_PARENT : TableNode :=
  mkTableNode (mkElement 0 0 0 None []) (Some (mkElement 0 0 0 None [])).

Definition DEFAULT_HEADER_HEIGHT : Z := 32.

(** One entry of react-window's offset table. *)
Record ItemMetadata := mkItemMetadata { offset : Z; size : Z }.

(** [listRef.current]: the windowing engine's imperative handle.  The
    engine is external; of [resetAfterIndex] the model keeps the calls
    it received, oldest first. *)
Record ListHandle := mkListHandle {
  itemMetadataMap : gmap Z ItemMetadata;
  resetAfterIndex_calls : list (option Z)
}.

Definition resetAfterIndex (index : option Z) (h : ListHandle) : ListHandle :=
  mkListHandle (itemMetadataMap h) (resetAfterIndex_calls h ++ [index]).

(** ** JavaScript operators on numbers *)

(** Truthiness of [number | undefined]: [undefined] and [0] are falsy. *)
Definition truthy (v : option Z) : bool :=
  match v with
  | Some n => negb (n =? 0)
  | None => false
  end.

(** [v || d]. *)
Definition js_or (v : option Z) (d : Z) : Z :=
  if truthy v then default d v else d.

(** [i + 1] for [i : number | null]: [null + 1] is [1]. *)
Definition js_succ (i : option Z) : Z :=
  match i with
  | Some n => n + 1
  | None => 1
  end.

(** [arr[i]]: [undefined] outside the array. *)
Definition js_index {A} (arr : list A) (i : option Z) : option A :=
  match i with
  | Some n => if n <? 0 then None else arr !! Z.to_nat n
  | None => None
  end.

(** [arr.reduce((pv, c) => pv + c.offsetHeight, 0)]. *)
Definition reduce_offsetHeight (arr : list Element) : Z :=
  fold_left (fun pv c => pv + offsetHeight c) arr 0.

(** The sum of the box heights of a list of elements. *)
Definition sum_heights (arr : list Element) : Z :=
  foldr Z.add 0 (offsetHeight <$> arr).

(** ** Props and context state *)

(** A column spec; [column_fixedWidth] is the optional fixed width. *)
Record ColumnSpec := mkColumn {
  key : string;
  column_fixedWidth : option Z
}.

(** Props of [ListComponent] together with the fields it reads from
    [tableContext.state].  A row is an opaque application record. *)
Record ListProps (Row : Type) := mkListProps {
  data : list Row;
  itemKey : option (option Row -> option Text);
  rowHeight : option Z;
  estimatedRowHeight : Z;
  uuid : string;
  columns : list ColumnSpec;
  minColumnWidth : Z;
  fixedWidth : Z;
  remainingCols : list ColumnSpec
}.

Arguments mkListProps {Row}.
Arguments data {Row}.
Arguments itemKey {Row}.
Arguments rowHeight {Row}.
Arguments estimatedRowHeight {Row}.
Arguments uuid {Row}.
Arguments columns {Row}.
Arguments minColumnWidth {Row}.
Arguments fixedWidth {Row}.
Arguments remainingCols {Row}.

(** [Table.defaultProps]. *)
Definition default_minColumnWidth : Z := 80.
Definition default_estimatedRowHeight : Z := 37.

(** ** Helpers of [./util] and [./useCellResize] *)

(** Modelled from the spec: [arraysMatch] of [./util] is not among the
    sources; the spec has the computed vector "compared element-wise
    against the previous vector". *)
Fixpoint arraysMatch (a b : list Z) : bool :=
  match a, b with
  | [], [] => true
  | x :: a', y :: b' => (x =? y) && arraysMatch a' b'
  | _, _ => false
  end.

(** The container's rendered width, as the allocator reads it. *)
Definition containerWidth (el : TableNode) : Z := clientWidth (node el).

(** Modelled from the spec: [calculateColumnWidths] of [./useCellResize]
    is not among the sources.  Spec 4.3: with
    [available = containerWidth - fixedTotalWidth], each flexible column
    receives [max(minColumnWidth, floor(available / count(flexibleColumns)))];
    a container that is not mounted gives the empty vector. *)
Definition calculateColumnWidths (element : option TableNode)
    (flexibleColumns : list ColumnSpec) (fixedTotalWidth minColumnWidth : Z)
    (allColumns : list ColumnSpec) : list Z :=
  match element with
  | None => []
  | Some el =>
      let available := containerWidth el - fixedTotalWidth in
      let share := available / Z.of_nat (length flexibleColumns) in
      (fun _ => Z.max minColumnWidth share) <$> flexibleColumns
  end.

(** Modelled from the spec: section 3 has the columns that declare a
    fixed width, and the rest, which are flexible. *)
Definition is_flexible (c : ColumnSpec) : bool :=
  match column_fixedWidth c with
  | Some _ => false
  | None => true
  end.

Definition flexibleColumns_of (cols : list ColumnSpec) : list ColumnSpec :=
  List.filter is_flexible cols.

Definition fixedTotalWidth_of (cols : list ColumnSpec) : Z :=
  foldr Z.add 0 ((fun c => default 0 (column_fixedWidth c)) <$> cols).

Definition sum_widths (ws : list Z) : Z := foldr Z.add 0 ws.

(** ** The event loop and the component instance *)

(** The closures the component hands to [window.setTimeout]. *)
Inductive Task :=
| ResetTask                                (* the arrow function of clearSizeCache *)
| RowWidthTask                             (* the arrow function of shouldUseRowWidth *)
| PixelWidthsTask (closed_over : list Z)   (* pixelWidthsHelper and the pixelWidths of its render *)
| ResizeKickTask.                          (* the arrow function of the mount effect *)

Record Timer := mkTimer {
  timer_id : Z;
  timer_due : Z;
  timer_task : Task
}.

(** The handlers the component registers for the window's resize event;
    [calculatepixelWidths] closes over [pixelWidthsHelper]. *)
Inductive Listener :=
| OnResize_shouldUseRowWidth
| OnResize_calculatepixelWidths (closed_over : list Z).

#[global] Instance Listener_eq_dec : EqDecision Listener.
Proof. solve_decision. Defined.

(** What an observer sees happen, oldest first. *)
Inductive Obs :=
| ObsFired (tm : Timer)
| ObsUncaught (id : Z)
| ObsSetPixelWidths (widths : list Z)
| ObsSetUseRowWidth (flag : bool).

(** The result of running a callback: it returns or throws a TypeError. *)
Inductive Completion (A : Type) :=
| Normal (a : A)
| Throw.

Arguments Normal {A}.
Arguments Throw {A}.

Record State := mkState {
  (* window *)
  now : Z;
  next_timer : Z;
  timers : list Timer;
  listeners : list Listener;
  documentMode : bool;
  (* useRef *)
  resizeRef : Z;
  timeoutRef : Z;
  pixelWidthsRef : Z;
  listRef : option ListHandle;
  tableRef : option TableNode;
  (* useState *)
  pixelWidths : list Z;
  useRowWidth : bool;
  (* observations *)
  trace : list Obs
}.

Definition set_now (v : Z) (st : State) : State :=
  mkState v (next_timer st) (timers st) (listeners st) (documentMode st)
    (resizeRef st) (timeoutRef st) (pixelWidthsRef st) (listRef st) (tableRef st)
    (pixelWidths st) (useRowWidth st) (trace st).

Definition set_next_timer (v : Z) (st : State) : State :=
  mkState (now st) v (timers st) (listeners st) (documentMode st)
    (resizeRef st) (timeoutRef st) (pixelWidthsRef st) (listRef st) (tableRef st)
    (pixelWidths st) (useRowWidth st) (trace st).

Definition set_timers (v : list Timer) (st : State) : State :=
  mkState (now st) (next_timer st) v (listeners st) (documentMode st)
    (resizeRef st) (timeoutRef st) (pixelWidthsRef st) (listRef st) (tableRef st)
    (pixelWidths st) (useRowWidth st) (trace st).

Definition set_listeners (v : list Listener) (st : State) : State :=
  mkState (now st) (next_timer st) (timers st) v (documentMode st)
    (resizeRef st) (timeoutRef st) (pixelWidthsRef st) (listRef st) (tableRef st)
    (pixelWidths st) (useRowWidth st) (trace st).

Definition set_resizeRef (v : Z) (st : State) : State :=
  mkState (now st) (next_timer st) (timers st) (listeners st) (documentMode st)
    v (timeoutRef st) (pixelWidthsRef st) (listRef st) (tableRef st)
    (pixelWidths st) (useRowWidth st) (trace st).

Definition set_timeoutRef (v : Z) (st : State) : State :=
  mkState (now st) (next_timer st) (timers st) (listeners st) (documentMode st)
    (resizeRef st) v (pixelWidthsRef st) (listRef st) (tableRef st)
    (pixelWidths st) (useRowWidth st) (trace st).

Definition set_pixelWidthsRef (v : Z) (st : State) : State :=
  mkState (now st) (next_timer st) (timers st) (listeners st) (documentMode st)
    (resizeRef st) (timeoutRef st) v (listRef st) (tableRef st)
    (pixelWidths st) (useRowWidth st) (trace st).

Definition set_listRef (v : option ListHandle) (st : State) : State :=
  mkState (now st) (next_timer st) (timers st) (listeners st) (documentMode st)
    (resizeRef st) (timeoutRef st) (pixelWidthsRef st) v (tableRef st)
    (pixelWidths st) (useRowWidth st) (trace st).

Definition set_tableRef (v : option TableNode) (st : State) : State :=
  mkState (now st) (next_timer st) (timers st) (listeners st) (documentMode st)
    (resizeRef st) (timeoutRef st) (pixelWidthsRef st) (listRef st) v
    (pixelWidths st) (useRowWidth st) (trace st).

Definition set_pixelWidths (v : list Z) (st : State) : State :=
  mkState (now st) (next_timer st) (timers st) (listeners st) (documentMode st)
    (resizeRef st) (timeoutRef st) (pixelWidthsRef st) (listRef st) (tableRef st)
    v (useRowWidth st) (trace st).

Definition set_useRowWidth (v : bool) (st : State) : State :=
  mkState (now st) (next_timer st) (timers st) (listeners st) (documentMode st)
    (resizeRef st) (timeoutRef st) (pixelWidthsRef st) (listRef st) (tableRef st)
    (pixelWidths st) v (trace st).

Definition observe (o : Obs) (st : State) : State :=
  mkState (now st) (next_timer st) (timers st) (listeners st) (documentMode st)
    (resizeRef st) (timeoutRef st) (pixelWidthsRef st) (listRef st) (tableRef st)
    (pixelWidths st) (useRowWidth st) (trace st ++ [o]).

(** *** [window] *)

(** [window.setTimeout(task, delay)]: a fresh id, the timer is queued. *)
Definition setTimeout (task : Task) (delay : Z) (st : State) : Z * State :=
  let id := next_timer st in
  (id, set_next_timer (id + 1)
         (set_timers (timers st ++ [mkTimer id (now st + delay) task]) st)).

(** [window.clearTimeout(id)]. *)
Definition clearTimeout (id : Z) (st : State) : State :=
  set_timers (filter (fun tm => timer_id tm <> id) (timers st)) st.

(** [if (ref.current) window.clearTimeout(ref.current)]. *)
Definition clearTimeout_if (ref_current : Z) (st : State) : State :=
  if ref_current =? 0 then st else clearTimeout ref_current st.

(** [window.addEventListener("resize", l)]: a listener already
    registered is not registered twice. *)
Definition addEventListener (l : Listener) (st : State) : State :=
  if decide (l ∈ listeners st) then st
  else set_listeners (listeners st ++ [l]) st.

(** [window.removeEventListener("resize", l)]. *)
Definition removeEventListener (l : Listener) (st : State) : State :=
  set_listeners (filter (fun l' => l' <> l) (listeners st)) st.

(** ** The spec's reading of the mode flag *)

Inductive RowWidthMode :=
| NaturalWidth
| StretchToFill.

(** The data model of the spec reads the flag as: "true means rows lay
    out to their natural combined width; false means rows stretch to the
    full viewport width".  This definition follows those words; the code
    is [rowWidthFlag] below. *)
Definition spec_mode_of_flag (useRowWidth : bool) : RowWidthMode :=
  if useRowWidth then NaturalWidth else StretchToFill.

(** ** Sample inputs *)

Definition ex_columns : list ColumnSpec :=
  [mkColumn "name" (Some 200); mkColumn "city" None;
   mkColumn "zip" None; mkColumn "note" None].

(** Three rows, a fixed row height of 30, no key extractor. *)
Definition ex_props : ListProps Z :=
  mkListProps [10; 20; 30] None (Some 30) default_estimatedRowHeight
    "t" ex_columns default_minColumnWidth
    (fixedTotalWidth_of ex_columns) (flexibleColumns_of ex_columns).

(** The same with an extractor that has no key for the row [20]. *)
Definition ex_itemKey (row : option Z) : option Text :=
  match row with
  | Some n => if n =? 20 then None else Some (TextNum (100 + n))
  | None => None
  end.

Definition ex_keyed_props : ListProps Z :=
  mkListProps [10; 20; 30] (Some ex_itemKey) None default_estimatedRowHeight
    "t" ex_columns default_minColumnWidth
    (fixedTotalWidth_of ex_columns) (flexibleColumns_of ex_columns).

Definition ex_box (height : Z) : Element := mkElement height 0 0 None [].

(** A mounted row: a 30 pixel row and a 12 pixel sub-component. *)
Definition ex_row : Element :=
  mkElement 42 0 0 (Some 3) [ex_box 30; ex_box 12].

(** The inner element (header, then the mounted rows) in a parent of the
    given scroll and client widths. *)
Definition ex_table (scroll client : Z) : TableNode :=
  mkTableNode
    (mkElement 0 client client None
       [ex_box 32; mkElement 0 0 0 None [ex_row]])
    (Some (mkElement 0 scroll client None [])).

Definition ex_handle : ListHandle :=
  mkListHandle ({[ 1 := mkItemMetadata 32 55 ]} : gmap Z ItemMetadata) [].

(** A mounted component at rest, and one whose refs are not attached. *)
Definition ex_mounted (layout : TableNode) : State :=
  mkState 0 1 []
    [OnResize_shouldUseRowWidth; OnResize_calculatepixelWidths []]
    false 0 0 0 (Some ex_handle) (Some layout) [] true [].

Definition ex_detached : State :=
  mkState 0 1 [] [] false 0 0 0 None None [] true [].

(** The props with another [rowHeight]. *)
Definition with_rowHeight {Row : Type} (v : option Z) (p : ListProps Row)
    : ListProps Row :=
  mkListProps (data p) (itemKey p) v (estimatedRowHeight p) (uuid p)
    (columns p) (minColumnWidth p) (fixedWidth p) (remainingCols p).

(** Further sample inputs: an inner element with no mounted row, one
    with no parent, a component whose inner element is as given, and
    the state a mount at time 0 leaves. *)
Definition ex_empty_table : TableNode :=
  mkTableNode
    (mkElement 0 1000 1000 None [ex_box 32; mkElement 0 0 0 None []])
    (Some (mkElement 0 1000 1000 None [])).

Definition ex_orphan_table : TableNode :=
  mkTableNode
    (mkElement 0 1000 1000 None [ex_box 32; mkElement 0 0 0 None [ex_row]])
    None.

Definition ex_at (t : option TableNode) : State :=
  mkState 0 1 []
    [OnResize_shouldUseRowWidth; OnResize_calculatepixelWidths []]
    false 0 0 0 (Some ex_handle) t [] true [].

Definition ex_fresh (docMode : bool) : State :=
  mkState 0 2 [mkTimer 1 0 ResizeKickTask]
    [OnResize_shouldUseRowWidth;
     OnResize_calculatepixelWidths [266; 266; 266]]
    docMode 0 0 0 (Some ex_handle) (Some (ex_table 1200 1000))
    [266; 266; 266] true
    [ObsSetPixelWidths [266; 266; 266]; ObsSetUseRowWidth true].

(** ** [ListComponent] *)

Section ListComponent.

Context {Row : Type} (p : ListProps Row).

(** [const defaultSize = rowHeight || estimatedRowHeight]. *)
Definition defaultSize : Z := js_or (rowHeight p) (estimatedRowHeight p).

Definition generateKeyFromRow (row : option Row) (defaultValue : Z) : Text :=
  let generatedKey :=
    match itemKey p with
    | Some f => f row
    | None => None
    end in
  match generatedKey with
  | Some k => k
  | None => TextNum defaultValue
  end.

(** *** [calculateHeight] *)

(** First argument of [calculateHeight]: a data index, or the row
    element a mounted row hands over (a ref, possibly null). *)
Inductive QueryParam :=
| QIndex (dataIndex : Z)
| QElement (row : option Element).

(** The key with which [calculateHeight(dataIndex)] looks the row up. *)
Definition calculateHeight_key (dataIndex : Z) : Text :=
  generateKeyFromRow (js_index (data p) (Some dataIndex)) dataIndex.

(** [findRowByUuidAndKey] of [./util] queries the live document for a
    mounted row element and is taken as given.  The key is only
    consumed when [queryParam] is a number, so it is built there. *)
Definition calculateHeight
    (findRowByUuidAndKey : string -> Text -> option Element)
    (listRef_current : option ListHandle)
    (queryParam : QueryParam) (optionalDataIndex : option Z) : Z :=
  let dataIndex :=
    match queryParam with
    | QIndex n => Some n
    | QElement _ => optionalDataIndex
    end in
  let row :=
    match queryParam with
    | QIndex n => findRowByUuidAndKey (uuid p) (calculateHeight_key n)
    | QElement e => e
    end in
  match row with
  | None =>
      match listRef_current with
      | None => defaultSize
      | Some h =>
          let cachedSize :=
            default (mkItemMetadata 0 defaultSize)
                    (itemMetadataMap h !! js_succ dataIndex) in
          js_or (Some (size cachedSize)) defaultSize
      end
  | Some r =>
      let arr :=
        if truthy (rowHeight p) then tail (children r) else children r in
      js_or (rowHeight p) 0 + reduce_offsetHeight arr
  end.

(** *** The props handed to [VariableSizeList] *)

Definition list_itemKey (index : Z) (rows : list Row) : Text :=
  if index =? 0 then TextStr (uuid p ++ "-header")
  else
    let dataIndex := index - 1 in
    let row := js_index rows (Some dataIndex) in
    generateKeyFromRow row index.

(** *** State updates *)

(** The effect of lines 169-177 and its cleanup, for the instance of
    [calculatepixelWidths] that closed over [c]. *)
Definition effect_calculatepixelWidths (c : list Z) (st : State) : State :=
  addEventListener (OnResize_calculatepixelWidths c) st.

Definition cleanup_calculatepixelWidths (c : list Z) (st : State) : State :=
  removeEventListener (OnResize_calculatepixelWidths c)
    (clearTimeout_if (pixelWidthsRef st) st).

(** [setPixelWidths(widths)].  The new array is a new dependency of
    [pixelWidthsHelper], hence of [calculatepixelWidths]: on the render
    that follows, a mounted component cleans the effect of lines
    169-177 up and runs it again with the new callback. *)
Definition setPixelWidths (widths : list Z) (st : State) : State :=
  let old := pixelWidths st in
  let st := observe (ObsSetPixelWidths widths) (set_pixelWidths widths st) in
  if decide (OnResize_calculatepixelWidths old ∈ listeners st) then
    effect_calculatepixelWidths widths (cleanup_calculatepixelWidths old st)
  else st.

(** [setUseRowWidth(flag)]: no callback depends on the flag. *)
Definition setUseRowWidth (flag : bool) (st : State) : State :=
  observe (ObsSetUseRowWidth flag) (set_useRowWidth flag st).

(** *** Callbacks *)

Definition clearSizeCache (dataIndex : Z) (forceUpdate : bool)
    (st : State) : State :=
  match listRef st with
  | None => st
  | Some _ =>
      let st := clearTimeout_if (timeoutRef st) st in
      let index := dataIndex + 1 in
      if forceUpdate then
        set_listRef (resetAfterIndex (Some index) <$> listRef st) st
      else
        let '(id, st) := setTimeout ResetTask 50 st in
        set_timeoutRef id st
  end.

(** [pixelWidthsHelper], as created by a render whose [pixelWidths]
    was [closed_over]. *)
Definition pixelWidthsHelper (closed_over : list Z) (st : State) : State :=
  let widths :=
    calculateColumnWidths (tableRef st) (remainingCols p) (fixedWidth p)
      (minColumnWidth p) (columns p) in
  if negb (arraysMatch widths closed_over) then setPixelWidths widths st
  else st.

Definition shouldUseRowWidth (st : State) : State :=
  let st := clearTimeout_if (resizeRef st) st in
  let '(id, st) := setTimeout RowWidthTask 50 st in
  set_resizeRef id st.

Definition calculatepixelWidths (closed_over : list Z) (st : State) : State :=
  let st := clearTimeout_if (pixelWidthsRef st) st in
  let '(id, st) := setTimeout (PixelWidthsTask closed_over) 50 st in
  set_pixelWidthsRef id st.

Definition run_listener (l : Listener) (st : State) : State :=
  match l with
  | OnResize_shouldUseRowWidth => shouldUseRowWidth st
  | OnResize_calculatepixelWidths c => calculatepixelWidths c st
  end.

(** [window.dispatchEvent(new Event("resize"))]. *)
Definition dispatch_resize (st : State) : State :=
  foldl (fun st l => run_listener l st) st (listeners st).

(** *** Timer callbacks *)

(** [parseInt(tableRef.current ?
      tableRef.current.children[1].children[0].dataset.index : 0) + 1]. *)
Definition resetIndex (tableRef_current : option TableNode)
    : Completion (option Z) :=
  match tableRef_current with
  | Some t =>
      match children (node t) !! 1%nat with
      | Some rows =>
          match children rows !! 0%nat with
          | Some first => Normal ((fun i => i + 1) <$> dataset_index first)
          | None => Throw
          end
      | None => Throw
      end
  | None => Normal (Some (0 + 1))
  end.

(** [parentElement.scrollWidth <= parentElement.clientWidth] with
    [const { parentElement } = tableRef.current || NO_PARENT]. *)
Definition rowWidthFlag (tableRef_current : option TableNode)
    : Completion bool :=
  match parentElement (default NO_PARENT tableRef_current) with
  | Some parent => Normal (scrollWidth parent <=? clientWidth parent)
  | None => Throw
  end.

Definition run_task (t : Task) (st : State) : Completion State :=
  match t with
  | ResetTask =>
      match resetIndex (tableRef st) with
      | Normal i =>
          match listRef st with
          | Some h => Normal (set_listRef (Some (resetAfterIndex i h)) st)
          | None => Throw
          end
      | Throw => Throw
      end
  | RowWidthTask =>
      match rowWidthFlag (tableRef st) with
      | Normal flag => Normal (setUseRowWidth flag st)
      | Throw => Throw
      end
  | PixelWidthsTask c => Normal (pixelWidthsHelper c st)
  | ResizeKickTask =>
      Normal (if negb (documentMode st) then dispatch_resize st else st)
  end.

(** *** The event loop *)

Inductive Kind := KReset | KRowWidth | KPixelWidths | KKick.

#[global] Instance Kind_eq_dec : EqDecision Kind.
Proof. solve_decision. Defined.

Definition kind_of (t : Task) : Kind :=
  match t with
  | ResetTask => KReset
  | RowWidthTask => KRowWidth
  | PixelWidthsTask _ => KPixelWidths
  | ResizeKickTask => KKick
  end.

Definition timer_kind (tm : Timer) : Kind := kind_of (timer_task tm).

(** The ref in which the component keeps the id of its pending timer
    of a kind; the mount kick is kept nowhere. *)
Definition ref_of (k : Kind) (st : State) : option Z :=
  match k with
  | KReset => Some (timeoutRef st)
  | KRowWidth => Some (resizeRef st)
  | KPixelWidths => Some (pixelWidthsRef st)
  | KKick => None
  end.

(** The timers of a kind that are pending. *)
Definition pending (k : Kind) (st : State) : list Timer :=
  filter (fun tm => timer_kind tm = k) (timers st).

(** A due timer leaves the queue and its callback runs; an exception
    it throws is reported and the loop goes on. *)
Definition fire (tm : Timer) (st : State) : State :=
  let st :=
    observe (ObsFired tm)
      (set_now (Z.max (now st) (timer_due tm))
         (clearTimeout (timer_id tm) st)) in
  match run_task (timer_task tm) st with
  | Normal st' => st'
  | Throw => observe (ObsUncaught (timer_id tm)) st
  end.

(** The timer to run next: the earliest deadline, the oldest first. *)
Fixpoint earliest (l : list Timer) : option Timer :=
  match l with
  | [] => None
  | tm :: l' =>
      match earliest l' with
      | Some tm' =>
          if timer_due tm' <? timer_due tm then Some tm' else Some tm
      | None => Some tm
      end
  end.

Definition next_due (t : Z) (st : State) : option Timer :=
  match earliest (timers st) with
  | Some tm => if timer_due tm <=? t then Some tm else None
  | None => None
  end.

Fixpoint run_due (fuel : nat) (t : Z) (st : State) : State :=
  match fuel with
  | O => st
  | S fuel' =>
      match next_due t st with
      | Some tm => run_due fuel' t (fire tm st)
      | None => st
      end
  end.

(** A bound on the callbacks that can still run: only the mount kick
    queues timers, at most one for each of the two listeners. *)
Definition fuel_of (st : State) : nat :=
  (length (timers st) + 2 * length (pending KKick st))%nat.

(** The clock advances by [dt]; every timer due by then fires. *)
Definition elapse (dt : Z) (st : State) : State :=
  let t := now st + dt in
  let st := run_due (fuel_of st) t st in
  set_now (Z.max (now st) t) st.

(** What the environment does to a mounted component. *)
Inductive Event :=
| Elapse (dt : Z)
| Resize (layout : option TableNode)
| ClearSizeCache (dataIndex : Z) (forceUpdate : bool).

Definition run_event (e : Event) (st : State) : State :=
  match e with
  | Elapse dt => elapse dt st
  | Resize layout => dispatch_resize (set_tableRef layout st)
  | ClearSizeCache i force => clearSizeCache i force st
  end.

Definition run_events (es : list Event) (st : State) : State :=
  foldl (fun st e => run_event e st) st es.

(** *** Mount and teardown *)

(** The state of a component that has rendered once: [useRef(0)],
    [useState([])], [useState(true)], and the refs React attached. *)
Definition initial (t0 : Z) (docMode : bool)
    (listRef_current : option ListHandle)
    (tableRef_current : option TableNode) : State :=
  mkState t0 1 [] [] docMode 0 0 0 listRef_current tableRef_current
    [] true [].

(** [setUseRowWidth(tableRef.current.scrollWidth <=
    tableRef.current.clientWidth)], lines 145-147. *)
Definition effect_initUseRowWidth (st : State) : Completion State :=
  match tableRef st with
  | Some t =>
      Normal (setUseRowWidth
                (scrollWidth (node t) <=? clientWidth (node t)) st)
  | None => Throw
  end.

(** Lines 150-156. *)
Definition effect_resizeKick (st : State) : State :=
  snd (setTimeout ResizeKickTask 0 st).

(** Lines 159-167. *)
Definition effect_shouldUseRowWidth (st : State) : State :=
  addEventListener OnResize_shouldUseRowWidth st.

Definition cleanup_shouldUseRowWidth (st : State) : State :=
  removeEventListener OnResize_shouldUseRowWidth
    (clearTimeout_if (resizeRef st) st).

(** Lines 180-186. *)
Definition cleanup_timeoutRef (st : State) : State :=
  clearTimeout_if (timeoutRef st) st.

(** The effects of the first render, in the order they are declared. *)
Definition mount (st : State) : Completion State :=
  let st := pixelWidthsHelper [] st in
  match effect_initUseRowWidth st with
  | Normal st =>
      let st := effect_resizeKick st in
      let st := effect_shouldUseRowWidth st in
      Normal (effect_calculatepixelWidths (pixelWidths st) st)
  | Throw => Throw
  end.

(** Teardown: the cleanups, in the order the effects are declared. *)
Definition unmount (st : State) : State :=
  let st := cleanup_shouldUseRowWidth st in
  let st := cleanup_calculatepixelWidths (pixelWidths st) st in
  cleanup_timeoutRef st.

(** *** Bursts of resize signals *)

(** A first resize signal, then further ones, each a given time after
    the one before; every signal comes with the layout of the moment. *)
Definition burst (first : option TableNode)
    (rest : list (Z * option TableNode)) (st : State) : State :=
  foldl (fun st s => run_event (Resize (snd s)) (run_event (Elapse (fst s)) st))
        (run_event (Resize first) st) rest.

Definition last_layout (first : option TableNode)
    (rest : list (Z * option TableNode)) : option TableNode :=
  foldl (fun _ s => snd s) first rest.

(** The flag a row-width recomputation publishes over [previous]. *)
Definition published_flag (tableRef_current : option TableNode)
    (previous : bool) : bool :=
  match rowWidthFlag tableRef_current with
  | Normal flag => flag
  | Throw => previous
  end.

(** *** Observations and invariants *)

(** The timers of a kind that have fired. *)
Definition fired_timers (tr : list Obs) : list Timer :=
  omap (fun o => match o with ObsFired tm => Some tm | _ => None end) tr.

Definition fired (k : Kind) (st : State) : list Timer :=
  filter (fun tm => timer_kind tm = k) (fired_timers (trace st)).

(** The state updates observed. *)
Definition is_update (o : Obs) : bool :=
  match o with
  | ObsSetPixelWidths _ | ObsSetUseRowWidth _ => true
  | _ => false
  end.

Definition updates (tr : list Obs) : list Obs := List.filter is_update tr.

(** A pending timer is held by the ref of its kind and by no other. *)
Definition owner_ok (st : State) (tm : Timer) : Prop :=
  forall k r, ref_of k st = Some r -> (timer_id tm = r <-> timer_kind tm = k).

(** A pending width recomputation closed over the published widths. *)
Definition closure_ok (st : State) (tm : Timer) : Prop :=
  forall c, timer_task tm = PixelWidthsTask c -> c = pixelWidths st.

Definition mounted (st : State) : Prop :=
  listeners st =
    [OnResize_shouldUseRowWidth;
     OnResize_calculatepixelWidths (pixelWidths st)].

(** The invariant of the states the component goes through. *)
Record wf (st : State) : Prop := mkWf {
  wf_next : 0 < next_timer st;
  wf_refs : forall k r, ref_of k st = Some r -> 0 <= r < next_timer st;
  wf_ids : Forall (fun tm => 0 < timer_id tm < next_timer st) (timers st);
  wf_nodup : NoDup (timer_id <$> timers st);
  wf_owner : Forall (owner_ok st) (timers st);
  wf_closure : Forall (closure_ok st) (timers st);
  wf_listeners :
    (listeners st = [] /\ pending KPixelWidths st = []) \/ mounted st
}.

(** Events that do not come from the component's own rows. *)
Definition from_environment (e : Event) : Prop :=
  match e with
  | ClearSizeCache _ _ => False
  | _ => True
  end.

(** *** Auxiliary notions of the proofs *)

(** The state in which the callback of a fired timer starts. *)
Definition dequeued (tm : Timer) (st : State) : State :=
  observe (ObsFired tm)
    (set_now (Z.max (now st) (timer_due tm)) (clearTimeout (timer_id tm) st)).

(** A measure of the timer table that every fired timer decreases. *)
Definition weight (l : list Timer) : nat :=
  (length l + 2 * length (filter (fun tm => timer_kind tm = KKick) l))%nat.

Definition cost (tm : Timer) : nat :=
  if decide (timer_kind tm = KKick) then 3%nat else 1%nat.

(** The states after teardown: no listener, nothing but mount kicks
    pending, and the published state as teardown left it. *)
Record torn_down (st0 st : State) : Prop := mkTornDown {
  td_listeners : listeners st = [];
  td_timers : forall tm, tm ∈ timers st -> timer_kind tm = KKick;
  td_pixelWidths : pixelWidths st = pixelWidths st0;
  td_useRowWidth : useRowWidth st = useRowWidth st0;
  td_listRef : listRef st = listRef st0;
  td_updates : updates (trace st) = updates (trace st0);
  td_fired : forall k, k <> KKick -> fired k st = fired k st0
}.

(** Both resize timers are armed and nothing of theirs has happened
    since [st0]. *)
Record armed (st0 : State) (tR tP : Timer) (st : State) : Prop := mkArmed {
  ar_wf : wf st;
  ar_mounted : mounted st;
  ar_nokick : pending KKick st = [];
  ar_row : pending KRowWidth st = [tR];
  ar_pix : pending KPixelWidths st = [tP];
  ar_fired_row : fired KRowWidth st = fired KRowWidth st0;
  ar_fired_pix : fired KPixelWidths st = fired KPixelWidths st0;
  ar_pixelWidths : pixelWidths st = pixelWidths st0;
  ar_useRowWidth : useRowWidth st = useRowWidth st0
}.

(** The state of a burst: armed by its latest signal. *)
Definition burst_armed (st0 : State) (layout : option TableNode)
    (st : State) : Prop :=
  exists tR tP,
    armed st0 tR tP st /\
    timer_due tR = now st + 50 /\ timer_due tP = now st + 50 /\
    timer_id tR = resizeRef st /\ timer_id tP = pixelWidthsRef st /\
    timer_task tR = RowWidthTask /\
    timer_task tP = PixelWidthsTask (pixelWidths st0) /\
    tableRef st = layout.

(** The recomputation of a kind has not run yet, or it has run once. *)
Definition row_settled (st0 : State) (l : option TableNode) (tR : Timer)
    (st : State) : Prop :=
  (pending KRowWidth st = [tR] /\
   fired KRowWidth st = fired KRowWidth st0 /\
   useRowWidth st = useRowWidth st0) \/
  (pending KRowWidth st = [] /\
   fired KRowWidth st = fired KRowWidth st0 ++ [tR] /\
   useRowWidth st = published_flag l (useRowWidth st0)).

Definition pixel_settled (st0 : State) (l : option TableNode) (tP : Timer)
    (st : State) : Prop :=
  (pending KPixelWidths st = [tP] /\
   fired KPixelWidths st = fired KPixelWidths st0 /\
   pixelWidths st = pixelWidths st0) \/
  (pending KPixelWidths st = [] /\
   fired KPixelWidths st = fired KPixelWidths st0 ++ [tP] /\
   pixelWidths st
   = calculateColumnWidths l (remainingCols p) (fixedWidth p)
       (minColumnWidth p) (columns p)).

Record settling (st0 : State) (l : option TableNode) (tR tP : Timer)
    (st : State) : Prop := mkSettling {
  se_wf : wf st;
  se_mounted : mounted st;
  se_nokick : pending KKick st = [];
  se_tableRef : tableRef st = l;
  se_row : row_settled st0 l tR st;
  se_pix : pixel_settled st0 l tP st
}.

(** *** More of the props handed to [VariableSizeList] *)

(** [itemCount={data.length + 1}]. *)
Definition list_itemCount : Z := Z.of_nat (length (data p)) + 1.

(** [itemSize].  [findHeaderByUuid] of [./util] queries the live
    document for the mounted header and is taken as given; reading
    [offsetHeight] of a missing first child throws. *)
Definition list_itemSize
    (findHeaderByUuid : string -> option Element)
    (findRowByUuidAndKey : string -> Text -> option Element)
    (listRef_current : option ListHandle) (index : Z) : Completion Z :=
  if index =? 0 then
    match findHeaderByUuid (uuid p) with
    | Some header =>
        match children header !! 0%nat with
        | Some first => Normal (offsetHeight first)
        | None => Throw
        end
    | None => Normal DEFAULT_HEADER_HEIGHT
    end
  else
    Normal (calculateHeight findRowByUuidAndKey listRef_current
              (QIndex (index - 1)) None).

(** *** Auxiliary notions for the invalidation timer *)

(** The invalidation timer [tm] is pending over the handle [h]. *)
Definition reset_pending (h : ListHandle) (t : option TableNode)
    (tm : Timer) (st : State) : Prop :=
  wf st /\ listRef st = Some h /\ tableRef st = t /\
  pending KReset st = [tm].

(** The invalidation timer [tm] is pending, or it has fired and reset
    the handle from [index]. *)
Definition reset_settled (h : ListHandle) (t : option TableNode)
    (tm : Timer) (index : option Z) (st : State) : Prop :=
  wf st /\ tableRef st = t /\
  ((pending KReset st = [tm] /\ listRef st = Some h) \/
   (pending KReset st = [] /\
    listRef st = Some (resetAfterIndex index h))).

(** No invalidation timer is pending over the handle [l]. *)
Definition reset_idle (l : option ListHandle) (st : State) : Prop :=
  wf st /\ pending KReset st = [] /\ listRef st = l.

(** ** Properties of keys and heights *)

Lemma fold_offsetHeight (arr : list Element) (a : Z) :
  fold_left (fun pv c => pv + offsetHeight c) arr a = a + sum_heights arr.
Proof.
  revert a. induction arr as [|c arr IH]; intros a; cbn.
  - lia.
  - rewrite IH. unfold sum_heights. cbn. lia.
Qed.

Lemma reduce_offsetHeight_sum (arr : list Element) :
  reduce_offsetHeight arr = sum_heights arr.
Proof. unfold reduce_offsetHeight. rewrite fold_offsetHeight. lia. Qed.



Lemma generateKeyFromRow_fallback (row : option Row) (d : Z) :
  (itemKey p = None \/ exists f, itemKey p = Some f /\ f row = None) ->
  generateKeyFromRow row d = TextNum d.
Proof.
  unfold generateKeyFromRow.
  intros [-> | (f & -> & ->)]; reflexivity.
Qed.

(** C7: key resolution returns the user's extractor result whenever an
    extractor is supplied and its result is not undefined; with no
    extractor, or an undefined result, it returns the fallback index.
    [generateKeyFromRow] is a total function: there is no exceptional
    outcome. *)
Theorem generateKeyFromRow_resolves (row : option Row) (defaultValue : Z) :
  (forall f k, itemKey p = Some f -> f row = Some k ->
     generateKeyFromRow row defaultValue = k) /\
  ((itemKey p = None \/ exists f, itemKey p = Some f /\ f row = None) ->
     generateKeyFromRow row defaultValue = TextNum defaultValue).
Proof.
  split.
  - intros f k Hf Hk. unfold generateKeyFromRow. now rewrite Hf, Hk.
  - apply generateKeyFromRow_fallback.
Qed.

(** C10: for a data row at windowing position [index >= 1] with no
    key extractor (or one that returns undefined for the row), the key
    handed to the windowing engine is [index], the key with which
    [calculateHeight] looks the same row up is [index - 1], and the
    two are never equal. *)
Theorem fallback_keys_differ (index : Z) :
  1 <= index ->
  (itemKey p = None \/
   exists f, itemKey p = Some f /\
             f (js_index (data p) (Some (index - 1))) = None) ->
  list_itemKey index (data p) = TextNum index /\
  calculateHeight_key (index - 1) = TextNum (index - 1) /\
  list_itemKey index (data p) <> calculateHeight_key (index - 1).
Proof.
  intros Hpos Hkey.
  assert (H1 : list_itemKey index (data p) = TextNum index).
  { unfold list_itemKey.
    destruct (index =? 0) eqn:E; [apply Z.eqb_eq in E; lia |].
    now apply generateKeyFromRow_fallback. }
  assert (H2 : calculateHeight_key (index - 1) = TextNum (index - 1)).
  { unfold calculateHeight_key. now apply generateKeyFromRow_fallback. }
  repeat split; trivial.
  rewrite H1, H2. intros Heq. injection Heq. lia.
Qed.

(** C3 (amended): for a data index [i], [calculateHeight] returns
    - the default [rowHeight || estimatedRowHeight] when the row is not
      mounted and the engine handle is not attached;
    - with the handle attached and the row not mounted, the size cached
      in slot [i + 1] of the engine's offset table, and the default
      when the slot is empty or holds 0;
    - for a mounted row, the sum of its children's box heights when no
      non-zero [rowHeight] is set, and otherwise [rowHeight] plus the
      sum over the children after the first. *)
Theorem calculateHeight_estimate
    (find : string -> Text -> option Element)
    (listRef_current : option ListHandle) (i : Z) (o : option Z) :
  let h := calculateHeight find listRef_current (QIndex i) o in
  (find (uuid p) (calculateHeight_key i) = None ->
   listRef_current = None -> h = defaultSize) /\
  (forall hd, find (uuid p) (calculateHeight_key i) = None ->
     listRef_current = Some hd ->
     h = match itemMetadataMap hd !! (i + 1) with
         | Some m => if size m =? 0 then defaultSize else size m
         | None => defaultSize
         end) /\
  (forall r, find (uuid p) (calculateHeight_key i) = Some r ->
     h = match rowHeight p with
         | Some fixed =>
             if fixed =? 0 then sum_heights (children r)
             else fixed + sum_heights (tail (children r))
         | None => sum_heights (children r)
         end) /\
  defaultSize = match rowHeight p with
                | Some fixed =>
                    if fixed =? 0 then estimatedRowHeight p else fixed
                | None => estimatedRowHeight p
                end.
Proof.
  cbv zeta. unfold calculateHeight. repeat split.
  - intros -> ->. reflexivity.
  - intros hd -> ->. cbn [js_succ].
    destruct (itemMetadataMap hd !! (i + 1)) as [m|]; simpl.
    + unfold js_or, truthy. simpl. destruct (size m =? 0); reflexivity.
    + unfold js_or at 1. simpl.
      destruct (defaultSize =? 0) eqn:E; simpl; [|reflexivity].
      apply Z.eqb_eq in E. now rewrite E.
  - intros r ->. rewrite reduce_offsetHeight_sum.
    unfold js_or, truthy. destruct (rowHeight p) as [fixed|]; simpl.
    + destruct (fixed =? 0); simpl; [lia | reflexivity].
    + lia.
  - unfold defaultSize, js_or, truthy.
    destruct (rowHeight p) as [fixed|]; [|reflexivity].
    destruct (fixed =? 0); reflexivity.
Qed.

(** C8: while the engine handle is not attached, [clearSizeCache]
    changes nothing (no reset, no timer), and [calculateHeight] gives
    the default height for a row that is not mounted; both are total
    functions, neither has an exceptional outcome. *)
Theorem detached_handle_is_noop (st : State)
    (find : string -> Text -> option Element) (o : option Z) :
  listRef st = None ->
  (forall dataIndex forceUpdate,
     clearSizeCache dataIndex forceUpdate st = st) /\
  (forall i, find (uuid p) (calculateHeight_key i) = None ->
     calculateHeight find (listRef st) (QIndex i) o = defaultSize) /\
  calculateHeight find (listRef st) (QElement None) o = defaultSize.
Proof.
  intros Hnull. repeat split.
  - intros. unfold clearSizeCache. now rewrite Hnull.
  - intros i Hrow. unfold calculateHeight. now rewrite Hrow, Hnull.
  - unfold calculateHeight. now rewrite Hnull.
Qed.

(** ** The row-width mode flag *)

(** C1 (amended): a resize recomputation publishes
    [useRowWidth = true] exactly when the container's scroll width does
    not exceed its client width: scroll width 1200 against client
    width 1000 publishes [false], and 800 against 1000 publishes
    [true]. *)
Theorem rowWidth_recomputation_flag (st : State) (t : TableNode)
    (parent : Element) :
  tableRef st = Some t ->
  parentElement t = Some parent ->
  exists st',
    run_task RowWidthTask st = Normal st' /\
    (useRowWidth st' = true <-> scrollWidth parent <= clientWidth parent) /\
    (useRowWidth st' = false <-> clientWidth parent < scrollWidth parent) /\
    (scrollWidth parent = 1200 -> clientWidth parent = 1000 ->
     useRowWidth st' = false) /\
    (scrollWidth parent = 800 -> clientWidth parent = 1000 ->
     useRowWidth st' = true).
Proof.
  intros Ht Hp. eexists. split.
  - cbn [run_task]. unfold rowWidthFlag. rewrite Ht. cbn [default].
    simpl. rewrite Hp. reflexivity.
  - cbn [setUseRowWidth observe set_useRowWidth useRowWidth].
    repeat split.
    + apply Z.leb_le.
    + apply Z.leb_le.
    + apply Z.leb_gt.
    + apply Z.leb_gt.
    + intros -> ->. reflexivity.
    + intros -> ->. reflexivity.
Qed.

(** With no inner element attached, [NO_PARENT] makes the flag [true]. *)
Lemma rowWidth_recomputation_detached (st : State) :
  tableRef st = None ->
  run_task RowWidthTask st = Normal (setUseRowWidth true st).
Proof. intros Ht. cbn [run_task]. unfold rowWidthFlag. now rewrite Ht. Qed.

(** The flag of the first render compares the inner element's own
    widths. *)
Lemma initUseRowWidth_flag (st : State) (t : TableNode) :
  tableRef st = Some t ->
  exists st', effect_initUseRowWidth st = Normal st' /\
    (useRowWidth st' = true <->
     scrollWidth (node t) <= clientWidth (node t)).
Proof.
  intros Ht. unfold effect_initUseRowWidth. rewrite Ht. eexists.
  split; [reflexivity|]. cbn. apply Z.leb_le.
Qed.

(** ** The column-width allocator *)

Lemma sum_widths_const (A : Type) (l : list A) (w : Z) :
  sum_widths ((fun _ => w) <$> l) = Z.of_nat (length l) * w.
Proof.
  unfold sum_widths. induction l as [|x l IH]; cbn [fmap list_fmap foldr length].
  - lia.
  - rewrite IH. lia.
Qed.

Lemma elem_of_const_fmap (A : Type) (l : list A) (w v : Z) :
  v ∈ (fun _ => w) <$> l -> v = w.
Proof. intros H. apply list_elem_of_fmap in H as (x & -> & _). reflexivity. Qed.

(** C2: with [available = containerWidth - fixedTotalWidth], every
    flexible column is assigned
    [max(minColumnWidth, floor(available / count))], never less than
    the minimum; a container of width 1000 with one fixed column of
    200 and three flexible ones gives 266 each and a total within the
    container, and a container of width 100 with one fixed column of
    200 and two flexible ones gives 80 each. *)
Theorem calculateColumnWidths_allocates (el : TableNode)
    (flexible all : list ColumnSpec) (fixedTotal minW : Z) :
  let available := containerWidth el - fixedTotal in
  let count := Z.of_nat (length flexible) in
  let ws := calculateColumnWidths (Some el) flexible fixedTotal minW all in
  (length ws = length flexible /\
   (forall w, w ∈ ws -> w = Z.max minW (available / count) /\ minW <= w) /\
   (count * minW <= available ->
    fixedTotal + sum_widths ws <= containerWidth el) /\
   (available < count * minW -> forall w, w ∈ ws -> w = minW)) /\
  (let cols := [mkColumn "a" (Some 200); mkColumn "b" None;
                mkColumn "c" None; mkColumn "d" None] in
   let box := mkTableNode (mkElement 0 1000 1000 None []) None in
   let ws1 := calculateColumnWidths (Some box) (flexibleColumns_of cols)
                (fixedTotalWidth_of cols) 80 cols in
   ws1 = [266; 266; 266] /\
   fixedTotalWidth_of cols + sum_widths ws1 <= containerWidth box) /\
  (let cols := [mkColumn "a" (Some 200); mkColumn "b" None;
                mkColumn "c" None] in
   let box := mkTableNode (mkElement 0 100 100 None []) None in
   calculateColumnWidths (Some box) (flexibleColumns_of cols)
     (fixedTotalWidth_of cols) 80 cols = [80; 80]).
Proof.
  cbv zeta. split; [|split; [split; [reflexivity | vm_compute; discriminate]
                            | reflexivity]].
  unfold calculateColumnWidths.
  set (available := containerWidth el - fixedTotal).
  set (count := Z.of_nat (length flexible)).
  repeat split.
  - apply length_fmap.
  - apply elem_of_const_fmap in H. exact H.
  - apply elem_of_const_fmap in H. lia.
  - intros Hroom. rewrite sum_widths_const. fold count.
    destruct (Z.eq_dec count 0) as [Hz | Hnz].
    + rewrite Hz in *. lia.
    + assert (Hpos : 0 < count) by lia.
      assert (Hlow : minW <= available / count)
        by (apply Z.div_le_lower_bound; lia).
      rewrite Z.max_r by exact Hlow.
      pose proof (Z.mul_div_le available count Hpos). lia.
  - intros Hnarrow w Hw.
    assert (Hpos : 0 < count).
    { unfold count. destruct flexible; [inversion Hw | cbn; lia]. }
    apply elem_of_const_fmap in Hw.
    assert (Hup : available / count < minW)
      by (apply Z.div_lt_upper_bound; lia).
    lia.
Qed.

(** ** Width recomputation *)

Lemma arraysMatch_refl (a : list Z) : arraysMatch a a = true.
Proof.
  induction a as [|x a IH]; cbn; [reflexivity|].
  now rewrite Z.eqb_refl, IH.
Qed.

Lemma arraysMatch_eq (a b : list Z) : arraysMatch a b = true -> a = b.
Proof.
  revert b. induction a as [|x a IH]; intros [|y b]; cbn; try discriminate.
  - reflexivity.
  - intros H. apply andb_true_iff in H as [Hxy Hab].
    apply Z.eqb_eq in Hxy. f_equal; [exact Hxy | now apply IH].
Qed.

Lemma setPixelWidths_tableRef (w : list Z) (st : State) :
  tableRef (setPixelWidths w st) = tableRef st.
Proof.
  unfold setPixelWidths, effect_calculatepixelWidths,
    cleanup_calculatepixelWidths, addEventListener, removeEventListener,
    clearTimeout_if, clearTimeout.
  repeat (case_decide || case_match); reflexivity.
Qed.

Lemma setPixelWidths_pixelWidths (w : list Z) (st : State) :
  pixelWidths (setPixelWidths w st) = w.
Proof.
  unfold setPixelWidths, effect_calculatepixelWidths,
    cleanup_calculatepixelWidths, addEventListener, removeEventListener,
    clearTimeout_if, clearTimeout.
  repeat (case_decide || case_match); reflexivity.
Qed.

(** C6: when the newly computed vector matches the previous one
    element-wise, [pixelWidthsHelper] leaves the whole state as it is
    (no [setPixelWidths], so no render); and run twice on an unchanged
    container and unchanged column specs, the second run computes the
    same vector and changes nothing. *)
Theorem pixelWidthsHelper_idempotent (st : State) :
  let widths_at st :=
    calculateColumnWidths (tableRef st) (remainingCols p) (fixedWidth p)
      (minColumnWidth p) (columns p) in
  (forall previous, arraysMatch (widths_at st) previous = true ->
     pixelWidthsHelper previous st = st) /\
  (let st1 := pixelWidthsHelper (pixelWidths st) st in
   widths_at st1 = widths_at st /\
   pixelWidths st1 = widths_at st /\
   pixelWidthsHelper (pixelWidths st1) st1 = st1).
Proof.
  cbv zeta. split.
  - intros previous Hmatch. unfold pixelWidthsHelper. now rewrite Hmatch.
  - assert (Hsame : tableRef (pixelWidthsHelper (pixelWidths st) st)
                    = tableRef st).
    { unfold pixelWidthsHelper. case_match; [|reflexivity].
      apply setPixelWidths_tableRef. }
    assert (Hpub : pixelWidths (pixelWidthsHelper (pixelWidths st) st)
                   = calculateColumnWidths (tableRef st) (remainingCols p)
                       (fixedWidth p) (minColumnWidth p) (columns p)).
    { unfold pixelWidthsHelper.
      destruct (arraysMatch _ (pixelWidths st)) eqn:E; cbn [negb].
      - symmetry. now apply arraysMatch_eq.
      - apply setPixelWidths_pixelWidths. }
    repeat split.
    + now rewrite Hsame.
    + exact Hpub.
    + unfold pixelWidthsHelper at 1. rewrite Hsame, Hpub.
      now rewrite arraysMatch_refl.
Qed.

(** ** Size-cache invalidation *)

Lemma clearTimeout_if_listRef (r : Z) (st : State) :
  listRef (clearTimeout_if r st) = listRef st.
Proof. unfold clearTimeout_if. case_match; reflexivity. Qed.


Lemma clearTimeout_if_now (r : Z) (st : State) :
  now (clearTimeout_if r st) = now st.
Proof. unfold clearTimeout_if. case_match; reflexivity. Qed.

Lemma clearTimeout_if_next_timer (r : Z) (st : State) :
  next_timer (clearTimeout_if r st) = next_timer st.
Proof. unfold clearTimeout_if. case_match; reflexivity. Qed.

(** ** The timer table *)

Lemma wf_ext (st st' : State) :
  wf st ->
  next_timer st' = next_timer st ->
  timers st' = timers st ->
  listeners st' = listeners st ->
  resizeRef st' = resizeRef st ->
  timeoutRef st' = timeoutRef st ->
  pixelWidthsRef st' = pixelWidthsRef st ->
  pixelWidths st' = pixelWidths st ->
  wf st'.
Proof.
  intros [Hn Hr Hi Hd Ho Hc Hl] En Et El E1 E2 E3 Ep.
  assert (Eref : forall k, ref_of k st' = ref_of k st)
    by (intros []; cbn; congruence).
  constructor.
  - now rewrite En.
  - intros k r. rewrite Eref, En. apply Hr.
  - now rewrite Et, En.
  - now rewrite Et.
  - rewrite Et. eapply Forall_impl; [exact Ho|].
    intros tm Htm k r. rewrite Eref. apply Htm.
  - rewrite Et. eapply Forall_impl; [exact Hc|].
    intros tm Htm c. rewrite Ep. apply Htm.
  - unfold mounted, pending in *. now rewrite El, Et, Ep.
Qed.

Lemma filter_id_zero (l : list Timer) :
  Forall (fun tm => 0 < timer_id tm) l ->
  filter (fun tm => timer_id tm <> 0) l = l.
Proof.
  induction 1 as [|tm l Htm _ IH]; [reflexivity|].
  rewrite filter_cons_True by lia. now rewrite IH.
Qed.

Lemma wf_ids_positive (st : State) :
  wf st -> Forall (fun tm => 0 < timer_id tm) (timers st).
Proof.
  intros Hwf. eapply Forall_impl; [apply (wf_ids _ Hwf)|].
  cbn. intros tm Htm. lia.
Qed.

Lemma timers_clearTimeout_if_pos (r : Z) (st : State) :
  Forall (fun tm => 0 < timer_id tm) (timers st) ->
  timers (clearTimeout_if r st)
  = filter (fun tm => timer_id tm <> r) (timers st).
Proof.
  intros Hpos. unfold clearTimeout_if.
  destruct (r =? 0) eqn:E; [|reflexivity].
  apply Z.eqb_eq in E. subst r. symmetry. now apply filter_id_zero.
Qed.

Lemma timers_clearTimeout_if (r : Z) (st : State) :
  wf st ->
  timers (clearTimeout_if r st)
  = filter (fun tm => timer_id tm <> r) (timers st).
Proof. intros Hwf. now apply timers_clearTimeout_if_pos, wf_ids_positive. Qed.

Lemma NoDup_ids_filter (P : Timer -> Prop) `{forall x, Decision (P x)}
    (l : list Timer) :
  NoDup (timer_id <$> l) -> NoDup (timer_id <$> filter P l).
Proof.
  induction l as [|x l IH]; [intros _; constructor|].
  rewrite fmap_cons, NoDup_cons. intros [Hx Hd].
  rewrite filter_cons. case_decide; [|now apply IH].
  rewrite fmap_cons, NoDup_cons. split; [|now apply IH].
  intros Hin. apply Hx.
  apply list_elem_of_fmap in Hin as (y & Hy & Hin).
  apply list_elem_of_filter in Hin as [_ Hin].
  apply list_elem_of_fmap. now exists y.
Qed.

Lemma Forall_filter_keep {A} (P Q : A -> Prop) `{forall x, Decision (P x)}
    (l : list A) :
  Forall Q l -> Forall Q (filter P l).
Proof.
  rewrite !Forall_forall. intros HQ x Hx.
  apply list_elem_of_filter in Hx as [_ Hx]. now apply HQ.
Qed.

Lemma filter_nil_iff {A} (P : A -> Prop) `{forall x, Decision (P x)}
    (l : list A) :
  filter P l = [] <-> forall x, x ∈ l -> ~ P x.
Proof.
  split.
  - intros Hnil x Hx HP. now apply (filter_nil_not_elem_of P l x).
  - induction l as [|x l IH]; intros Hall; [reflexivity|].
    rewrite filter_cons_False by (apply Hall; left).
    apply IH. intros y Hy. apply Hall. now right.
Qed.

Lemma pending_nil_iff (k : Kind) (st : State) :
  pending k st = [] <-> forall tm, tm ∈ timers st -> timer_kind tm <> k.
Proof. unfold pending. apply filter_nil_iff. Qed.

Lemma wf_filter (P : Timer -> Prop) `{forall x, Decision (P x)} (st : State) :
  wf st -> wf (set_timers (filter P (timers st)) st).
Proof.
  intros [Hn Hr Hi Hd Ho Hc Hl]. constructor.
  - exact Hn.
  - exact Hr.
  - cbn. now apply Forall_filter_keep.
  - cbn. now apply NoDup_ids_filter.
  - cbn. now apply Forall_filter_keep.
  - cbn. now apply Forall_filter_keep.
  - destruct Hl as [[Hl Hp]|Hl]; [left|right; exact Hl].
    split; [exact Hl|]. rewrite pending_nil_iff in Hp.
    apply pending_nil_iff. cbn [timers set_timers].
    intros tm Htm. apply list_elem_of_filter in Htm as [_ Htm].
    now apply Hp.
Qed.

Lemma wf_clearTimeout (id : Z) (st : State) :
  wf st -> wf (clearTimeout id st).
Proof. apply wf_filter. Qed.

Lemma wf_clearTimeout_if (r : Z) (st : State) :
  wf st -> wf (clearTimeout_if r st).
Proof.
  intros Hwf. unfold clearTimeout_if. case_match; [exact Hwf|].
  now apply wf_clearTimeout.
Qed.

Lemma wf_arm (k : Kind) (r : Z) (task : Task) (due : Z) (st st' : State) :
  wf st ->
  kind_of task = k ->
  ref_of k st = Some r ->
  timers st' = filter (fun tm => timer_id tm <> r) (timers st)
               ++ [mkTimer (next_timer st) due task] ->
  next_timer st' = next_timer st + 1 ->
  ref_of k st' = Some (next_timer st) ->
  (forall k', k' <> k -> ref_of k' st' = ref_of k' st) ->
  pixelWidths st' = pixelWidths st ->
  listeners st' = listeners st ->
  (forall c, task = PixelWidthsTask c -> c = pixelWidths st /\ mounted st) ->
  wf st'.
Proof.
  intros [Hn Hr Hi Hd Ho Hc Hl] Hk Href Et En Ek Eother Ep El Hclo.
  rewrite Forall_forall in Hi, Ho, Hc.
  constructor.
  - lia.
  - intros k' r' Hr'. destruct (decide (k' = k)) as [->|Hne].
    + rewrite Ek in Hr'. injection Hr' as <-. lia.
    + rewrite Eother in Hr' by exact Hne. apply Hr in Hr'. lia.
  - rewrite Et, En. apply Forall_app. split.
    + apply Forall_forall. intros tm Htm.
      apply list_elem_of_filter in Htm as [_ Htm]. apply Hi in Htm. lia.
    + repeat constructor; cbn; lia.
  - rewrite Et, fmap_app. apply NoDup_app. repeat split.
    + now apply NoDup_ids_filter.
    + intros x Hx Hx'. cbn in Hx'. apply list_elem_of_singleton in Hx'.
      apply list_elem_of_fmap in Hx as (tm & -> & Htm).
      apply list_elem_of_filter in Htm as [_ Htm]. apply Hi in Htm. lia.
    + apply NoDup_singleton.
  - rewrite Et. apply Forall_app. split.
    + apply Forall_forall. intros tm Htm.
      apply list_elem_of_filter in Htm as [Hne Htm].
      intros k' r' Hr'. destruct (decide (k' = k)) as [->|Hk'].
      * rewrite Ek in Hr'. injection Hr' as <-. split.
        -- intros Hid. apply Hi in Htm. lia.
        -- intros Hkind. exfalso. apply Hne.
           now apply (Ho tm Htm k r Href).
      * rewrite Eother in Hr' by exact Hk'. now apply (Ho tm Htm).
    + constructor; [|constructor]. intros k' r' Hr'. cbn.
      unfold timer_kind. cbn. destruct (decide (k' = k)) as [->|Hk'].
      * rewrite Ek in Hr'. injection Hr' as <-. tauto.
      * rewrite Eother in Hr' by exact Hk'. apply Hr in Hr'.
        split; [lia | congruence].
  - rewrite Et. apply Forall_app. split.
    + apply Forall_forall. intros tm Htm.
      apply list_elem_of_filter in Htm as [_ Htm].
      intros c Hcl. rewrite Ep. now apply (Hc tm Htm).
    + constructor; [|constructor]. intros c Hcl. cbn in Hcl.
      rewrite Ep. now apply Hclo.
  - destruct Hl as [[Hl Hp]|Hl].
    + left. split; [now rewrite El|].
      rewrite pending_nil_iff in Hp. apply pending_nil_iff.
      rewrite Et. intros tm Htm. apply elem_of_app in Htm as [Htm|Htm].
      * apply list_elem_of_filter in Htm as [_ Htm]. now apply Hp.
      * apply list_elem_of_singleton in Htm. subst tm.
        unfold timer_kind. cbn. intros Hpix.
        destruct task; try discriminate.
        destruct (Hclo _ eq_refl) as [_ Hm]. unfold mounted in Hm.
        rewrite Hl in Hm. discriminate.
    + right. unfold mounted in *. now rewrite El, Ep.
Qed.

Lemma wf_shouldUseRowWidth (st : State) :
  wf st -> wf (shouldUseRowWidth st).
Proof.
  intros Hwf. unfold shouldUseRowWidth, setTimeout.
  eapply (wf_arm KRowWidth (resizeRef st) RowWidthTask _ st); try exact Hwf;
    try reflexivity.
  - cbn. rewrite timers_clearTimeout_if by exact Hwf.
    now rewrite clearTimeout_if_next_timer.
  - cbn. now rewrite clearTimeout_if_next_timer.
  - cbn. now rewrite clearTimeout_if_next_timer.
  - intros k' Hk'. unfold clearTimeout_if.
    destruct k'; try contradiction; case_match; reflexivity.
  - unfold clearTimeout_if. cbn. case_match; reflexivity.
  - unfold clearTimeout_if. cbn. case_match; reflexivity.
  - discriminate.
Qed.

Lemma wf_calculatepixelWidths (st : State) :
  wf st -> mounted st -> wf (calculatepixelWidths (pixelWidths st) st).
Proof.
  intros Hwf Hm. unfold calculatepixelWidths, setTimeout.
  eapply (wf_arm KPixelWidths (pixelWidthsRef st)
            (PixelWidthsTask (pixelWidths st)) _ st); try exact Hwf;
    try reflexivity.
  - cbn. rewrite timers_clearTimeout_if by exact Hwf.
    now rewrite clearTimeout_if_next_timer.
  - cbn. now rewrite clearTimeout_if_next_timer.
  - cbn. now rewrite clearTimeout_if_next_timer.
  - intros k' Hk'. unfold clearTimeout_if.
    destruct k'; try contradiction; case_match; reflexivity.
  - unfold clearTimeout_if. cbn. case_match; reflexivity.
  - unfold clearTimeout_if. cbn. case_match; reflexivity.
  - intros c Hc. injection Hc as <-. now split.
Qed.

Lemma wf_clearSizeCache (i : Z) (force : bool) (st : State) :
  wf st -> wf (clearSizeCache i force st).
Proof.
  intros Hwf. unfold clearSizeCache.
  destruct (listRef st) as [h|] eqn:Hh; [|exact Hwf].
  destruct force.
  - eapply wf_ext; [apply (wf_clearTimeout_if (timeoutRef st)), Hwf|..];
      reflexivity.
  - unfold setTimeout.
    eapply (wf_arm KReset (timeoutRef st) ResetTask _ st); try exact Hwf;
      try reflexivity.
    + cbn. rewrite timers_clearTimeout_if by exact Hwf.
      now rewrite clearTimeout_if_next_timer.
    + cbn. now rewrite clearTimeout_if_next_timer.
    + cbn. now rewrite clearTimeout_if_next_timer.
    + intros k' Hk'. unfold clearTimeout_if.
      destruct k'; try contradiction; case_match; reflexivity.
    + unfold clearTimeout_if. cbn. case_match; reflexivity.
    + unfold clearTimeout_if. cbn. case_match; reflexivity.
    + discriminate.
Qed.

(** ** State updates and dispatch *)

Ltac state_fields :=
  unfold setPixelWidths, effect_calculatepixelWidths,
    cleanup_calculatepixelWidths, addEventListener, removeEventListener,
    clearTimeout_if, clearTimeout, setUseRowWidth;
  repeat (case_decide || case_match); reflexivity.

Lemma setPixelWidths_next_timer (w : list Z) (st : State) :
  next_timer (setPixelWidths w st) = next_timer st.
Proof. state_fields. Qed.

Lemma setPixelWidths_refs (w : list Z) (st : State) (k : Kind) :
  ref_of k (setPixelWidths w st) = ref_of k st.
Proof. destruct k; cbn; state_fields. Qed.

Lemma setPixelWidths_useRowWidth (w : list Z) (st : State) :
  useRowWidth (setPixelWidths w st) = useRowWidth st.
Proof. state_fields. Qed.




Lemma setPixelWidths_trace (w : list Z) (st : State) :
  trace (setPixelWidths w st) = trace st ++ [ObsSetPixelWidths w].
Proof. state_fields. Qed.

Lemma setPixelWidths_timers_mounted (w : list Z) (st : State) :
  wf st -> mounted st ->
  timers (setPixelWidths w st)
  = filter (fun tm => timer_id tm <> pixelWidthsRef st) (timers st).
Proof.
  intros Hwf Hm. unfold setPixelWidths.
  rewrite decide_True
    by (cbn; rewrite Hm; apply elem_of_cons; right; apply elem_of_cons; now left).
  unfold effect_calculatepixelWidths, cleanup_calculatepixelWidths,
    addEventListener, removeEventListener.
  case_decide; cbn [timers set_listeners];
    rewrite timers_clearTimeout_if_pos; try reflexivity;
    apply (wf_ids_positive _ Hwf).
Qed.

Lemma setPixelWidths_listeners_mounted (w : list Z) (st : State) :
  mounted st -> mounted (setPixelWidths w st).
Proof.
  intros Hm. unfold mounted. rewrite setPixelWidths_pixelWidths.
  unfold setPixelWidths.
  rewrite decide_True
    by (cbn; rewrite Hm; apply elem_of_cons; right; apply elem_of_cons; now left).
  unfold effect_calculatepixelWidths, cleanup_calculatepixelWidths,
    addEventListener, removeEventListener.
  assert (Hl : listeners
                 (clearTimeout_if
                    (pixelWidthsRef (observe (ObsSetPixelWidths w)
                                       (set_pixelWidths w st)))
                    (observe (ObsSetPixelWidths w) (set_pixelWidths w st)))
               = [OnResize_shouldUseRowWidth;
                  OnResize_calculatepixelWidths (pixelWidths st)]).
  { unfold clearTimeout_if. case_match; cbn; exact Hm. }
  cbn [listeners set_listeners]. rewrite Hl.
  rewrite filter_cons_True by discriminate.
  rewrite filter_cons_False by (intros Hne; now apply Hne).
  rewrite filter_nil.
  rewrite decide_False; [reflexivity|].
  intros Hin. apply list_elem_of_singleton in Hin. discriminate.
Qed.

Lemma setPixelWidths_unmounted (w : list Z) (st : State) :
  listeners st = [] ->
  setPixelWidths w st = observe (ObsSetPixelWidths w) (set_pixelWidths w st).
Proof.
  intros Hl. unfold setPixelWidths. rewrite decide_False; [reflexivity|].
  cbn. rewrite Hl. apply not_elem_of_nil.
Qed.

Lemma wf_republish (P : Timer -> Prop) `{forall x, Decision (P x)}
    (st st' : State) :
  wf st ->
  timers st' = filter P (timers st) ->
  next_timer st' = next_timer st ->
  (forall k, ref_of k st' = ref_of k st) ->
  pending KPixelWidths st' = [] ->
  listeners st' = [] \/ mounted st' ->
  wf st'.
Proof.
  intros Hwf Et En Er Hp Hl.
  destruct (wf_filter P st Hwf) as [Hn Hr Hi Hd Ho Hc _].
  cbn in Hn, Hr, Hi, Hd, Ho, Hc.
  constructor.
  - now rewrite En.
  - intros k r. rewrite Er, En. apply Hr.
  - now rewrite Et, En.
  - now rewrite Et.
  - rewrite Et. eapply Forall_impl; [exact Ho|].
    intros tm Htm k r. rewrite Er. apply Htm.
  - apply Forall_forall. intros tm Htm c Hc'.
    rewrite pending_nil_iff in Hp. exfalso. apply (Hp tm Htm).
    unfold timer_kind. now rewrite Hc'.
  - destruct Hl as [Hl|Hl]; [left; now split | now right].
Qed.

Lemma pending_after_clear (k : Kind) (r : Z) (st : State) :
  wf st -> ref_of k st = Some r ->
  forall tm, tm ∈ filter (fun tm => timer_id tm <> r) (timers st) ->
             timer_kind tm <> k.
Proof.
  intros Hwf Hr tm Htm Hk.
  apply list_elem_of_filter in Htm as [Hne Htm].
  pose proof (wf_owner _ Hwf) as Ho. rewrite Forall_forall in Ho.
  apply Hne. now apply (Ho tm Htm k r Hr).
Qed.

Lemma wf_setPixelWidths (w : list Z) (st : State) :
  wf st -> wf (setPixelWidths w st).
Proof.
  intros Hwf. destruct (wf_listeners _ Hwf) as [[Hl Hp]|Hm].
  - rewrite setPixelWidths_unmounted by exact Hl.
    eapply (wf_republish (fun tm => timer_id tm <> 0) st); try exact Hwf.
    + cbn. symmetry. apply filter_id_zero, wf_ids_positive, Hwf.
    + reflexivity.
    + intros []; reflexivity.
    + exact Hp.
    + now left.
  - eapply (wf_republish (fun tm => timer_id tm <> pixelWidthsRef st) st);
      try exact Hwf.
    + now apply setPixelWidths_timers_mounted.
    + apply setPixelWidths_next_timer.
    + apply setPixelWidths_refs.
    + apply pending_nil_iff.
      rewrite setPixelWidths_timers_mounted by assumption.
      now apply (pending_after_clear KPixelWidths).
    + right. now apply setPixelWidths_listeners_mounted.
Qed.

Lemma wf_pixelWidthsHelper (c : list Z) (st : State) :
  wf st -> wf (pixelWidthsHelper c st).
Proof.
  intros Hwf. unfold pixelWidthsHelper. case_match; [|exact Hwf].
  now apply wf_setPixelWidths.
Qed.

Lemma wf_setUseRowWidth (b : bool) (st : State) :
  wf st -> wf (setUseRowWidth b st).
Proof. intros Hwf. eapply wf_ext; [exact Hwf|..]; reflexivity. Qed.

Lemma shouldUseRowWidth_listeners (st : State) :
  listeners (shouldUseRowWidth st) = listeners st.
Proof.
  unfold shouldUseRowWidth, setTimeout, clearTimeout_if, clearTimeout.
  case_match; reflexivity.
Qed.

Lemma shouldUseRowWidth_pixelWidths (st : State) :
  pixelWidths (shouldUseRowWidth st) = pixelWidths st.
Proof.
  unfold shouldUseRowWidth, setTimeout, clearTimeout_if, clearTimeout.
  case_match; reflexivity.
Qed.

Lemma dispatch_resize_unmounted (st : State) :
  listeners st = [] -> dispatch_resize st = st.
Proof. intros Hl. unfold dispatch_resize. now rewrite Hl. Qed.

Lemma dispatch_resize_mounted (st : State) :
  mounted st ->
  dispatch_resize st
  = calculatepixelWidths (pixelWidths st) (shouldUseRowWidth st).
Proof. intros Hm. unfold dispatch_resize. now rewrite Hm. Qed.

Lemma wf_dispatch_resize (st : State) :
  wf st -> wf (dispatch_resize st).
Proof.
  intros Hwf. destruct (wf_listeners _ Hwf) as [[Hl _]|Hm].
  - now rewrite dispatch_resize_unmounted.
  - rewrite dispatch_resize_mounted by exact Hm.
    rewrite <- shouldUseRowWidth_pixelWidths.
    apply wf_calculatepixelWidths; [now apply wf_shouldUseRowWidth|].
    unfold mounted.
    now rewrite shouldUseRowWidth_listeners, shouldUseRowWidth_pixelWidths.
Qed.

(** ** The invariant holds from mount to teardown *)

Lemma wf_observe (o : Obs) (st : State) : wf st -> wf (observe o st).
Proof. intros Hwf. eapply wf_ext; [exact Hwf|..]; reflexivity. Qed.

Lemma wf_set_now (t : Z) (st : State) : wf st -> wf (set_now t st).
Proof. intros Hwf. eapply wf_ext; [exact Hwf|..]; reflexivity. Qed.

Lemma wf_set_tableRef (t : option TableNode) (st : State) :
  wf st -> wf (set_tableRef t st).
Proof. intros Hwf. eapply wf_ext; [exact Hwf|..]; reflexivity. Qed.

Lemma wf_set_listRef (h : option ListHandle) (st : State) :
  wf st -> wf (set_listRef h st).
Proof. intros Hwf. eapply wf_ext; [exact Hwf|..]; reflexivity. Qed.

Lemma wf_run_task (t : Task) (st st' : State) :
  wf st -> run_task t st = Normal st' -> wf st'.
Proof.
  intros Hwf. destruct t; cbn [run_task].
  - destruct (resetIndex (tableRef st)); [|discriminate].
    destruct (listRef st); [|discriminate].
    intros [= <-]. now apply wf_set_listRef.
  - destruct (rowWidthFlag (tableRef st)); [|discriminate].
    intros [= <-]. now apply wf_setUseRowWidth.
  - intros [= <-]. now apply wf_pixelWidthsHelper.
  - intros [= <-]. case_match; [now apply wf_dispatch_resize | exact Hwf].
Qed.

Lemma wf_fire (tm : Timer) (st : State) : wf st -> wf (fire tm st).
Proof.
  intros Hwf. unfold fire.
  set (st0 := observe (ObsFired tm) _).
  assert (Hwf0 : wf st0)
    by (apply wf_observe, wf_set_now, wf_clearTimeout, Hwf).
  destruct (run_task (timer_task tm) st0) as [st'|] eqn:E.
  - eapply wf_run_task; eassumption.
  - now apply wf_observe.
Qed.

Lemma wf_run_due (fuel : nat) (t : Z) (st : State) :
  wf st -> wf (run_due fuel t st).
Proof.
  revert st. induction fuel as [|fuel IH]; intros st Hwf; cbn; [exact Hwf|].
  destruct (next_due t st); [|exact Hwf]. now apply IH, wf_fire.
Qed.

Lemma wf_elapse (dt : Z) (st : State) : wf st -> wf (elapse dt st).
Proof. intros Hwf. unfold elapse. now apply wf_set_now, wf_run_due. Qed.

Lemma wf_run_event (e : Event) (st : State) :
  wf st -> wf (run_event e st).
Proof.
  intros Hwf. destruct e; cbn [run_event].
  - now apply wf_elapse.
  - now apply wf_dispatch_resize, wf_set_tableRef.
  - now apply wf_clearSizeCache.
Qed.

Lemma wf_run_events (es : list Event) (st : State) :
  wf st -> wf (run_events es st).
Proof.
  unfold run_events. revert st.
  induction es as [|e es IH]; intros st Hwf; cbn; [exact Hwf|].
  now apply IH, wf_run_event.
Qed.

Lemma wf_initial (t0 : Z) (docMode : bool) (h : option ListHandle)
    (t : option TableNode) :
  wf (initial t0 docMode h t).
Proof.
  constructor; cbn.
  - lia.
  - intros [] r [= <-]; lia.
  - constructor.
  - constructor.
  - constructor.
  - constructor.
  - now left.
Qed.

Lemma wf_resizeKick (st : State) : wf st -> wf (effect_resizeKick st).
Proof.
  intros [Hn Hr Hi Hd Ho Hc Hl]. unfold effect_resizeKick, setTimeout.
  rewrite Forall_forall in Hi. constructor; cbn.
  - lia.
  - intros k r Hk. assert (Hk' : ref_of k st = Some r)
      by (destruct k; exact Hk). apply Hr in Hk'. lia.
  - apply Forall_app. split.
    + apply Forall_forall. intros tm Htm. apply Hi in Htm. lia.
    + repeat constructor; cbn; lia.
  - rewrite fmap_app. apply NoDup_app. repeat split; [exact Hd| |].
    + intros x Hx Hx'. cbn in Hx'. apply list_elem_of_singleton in Hx'.
      apply list_elem_of_fmap in Hx as (tm & -> & Htm).
      apply Hi in Htm. lia.
    + apply NoDup_singleton.
  - apply Forall_app. split.
    + eapply Forall_impl; [exact Ho|]. intros tm Htm k r Hk.
      apply Htm. destruct k; exact Hk.
    + constructor; [|constructor]. intros k r Hk. unfold timer_kind. cbn.
      assert (Hk' : ref_of k st = Some r) by (destruct k; exact Hk).
      pose proof (Hr _ _ Hk') as Hrange.
      split; [lia|]. intros <-. discriminate.
  - apply Forall_app. split.
    + eapply Forall_impl; [exact Hc|]. intros tm Htm c. apply Htm.
    + constructor; [|constructor]. intros c. cbn. discriminate.
  - destruct Hl as [[Hl Hp]|Hl]; [left|now right].
    split; [exact Hl|]. rewrite pending_nil_iff in Hp.
    apply filter_nil_iff. intros tm Htm.
    apply elem_of_app in Htm as [Htm|Htm]; [now apply Hp|].
    apply list_elem_of_singleton in Htm. now subst tm.
Qed.

Lemma wf_register (st : State) :
  wf st -> listeners st = [] ->
  wf (effect_calculatepixelWidths (pixelWidths (effect_shouldUseRowWidth st))
        (effect_shouldUseRowWidth st)) /\
  mounted (effect_calculatepixelWidths
             (pixelWidths (effect_shouldUseRowWidth st))
             (effect_shouldUseRowWidth st)).
Proof.
  intros Hwf Hl.
  assert (Hm : mounted (effect_calculatepixelWidths
             (pixelWidths (effect_shouldUseRowWidth st))
             (effect_shouldUseRowWidth st))).
  { assert (E : effect_shouldUseRowWidth st
                = set_listeners [OnResize_shouldUseRowWidth] st).
    { unfold effect_shouldUseRowWidth, addEventListener. rewrite Hl.
      now rewrite decide_False by apply not_elem_of_nil. }
    rewrite E. unfold effect_calculatepixelWidths, addEventListener, mounted.
    cbn [listeners set_listeners pixelWidths].
    rewrite decide_False; [reflexivity|].
    intros Hin. apply list_elem_of_singleton in Hin. discriminate. }
  split; [|exact Hm].
  destruct Hwf as [Hn Hr Hi Hd Ho Hc Hlis].
  assert (Hsame :
    forall st', st' = effect_calculatepixelWidths
             (pixelWidths (effect_shouldUseRowWidth st))
             (effect_shouldUseRowWidth st) ->
      next_timer st' = next_timer st /\ timers st' = timers st /\
      pixelWidths st' = pixelWidths st /\
      (forall k, ref_of k st' = ref_of k st)).
  { intros st' ->.
    unfold effect_shouldUseRowWidth, effect_calculatepixelWidths,
      addEventListener.
    repeat case_decide; repeat split; try reflexivity;
      intros []; reflexivity. }
  destruct (Hsame _ eq_refl) as (En & Et & Ep & Er).
  constructor.
  - now rewrite En.
  - intros k r. rewrite Er, En. apply Hr.
  - now rewrite Et, En.
  - now rewrite Et.
  - rewrite Et. eapply Forall_impl; [exact Ho|].
    intros tm Htm k r. rewrite Er. apply Htm.
  - rewrite Et. eapply Forall_impl; [exact Hc|].
    intros tm Htm c. rewrite Ep. apply Htm.
  - now right.
Qed.

(** ** Firing a timer *)


Lemma fire_reset (tm : Timer) (st : State) :
  timer_task tm = ResetTask ->
  (exists h, fire tm st = set_listRef h (dequeued tm st)) \/
  fire tm st = observe (ObsUncaught (timer_id tm)) (dequeued tm st).
Proof.
  intros Ht. unfold fire. fold (dequeued tm st). rewrite Ht. cbn [run_task].
  destruct (resetIndex _); [|now right].
  destruct (listRef _); [|now right]. left. now eexists.
Qed.

Lemma fire_rowWidth (tm : Timer) (st : State) :
  timer_task tm = RowWidthTask ->
  fire tm st = match rowWidthFlag (tableRef st) with
               | Normal flag => setUseRowWidth flag (dequeued tm st)
               | Throw => observe (ObsUncaught (timer_id tm)) (dequeued tm st)
               end.
Proof.
  intros Ht. unfold fire. fold (dequeued tm st). rewrite Ht. cbn [run_task].
  change (tableRef (dequeued tm st)) with (tableRef st).
  now destruct (rowWidthFlag _).
Qed.

Lemma fire_pixelWidths (tm : Timer) (c : list Z) (st : State) :
  timer_task tm = PixelWidthsTask c ->
  fire tm st = pixelWidthsHelper c (dequeued tm st).
Proof. intros Ht. unfold fire. fold (dequeued tm st). now rewrite Ht. Qed.

Lemma fire_kick (tm : Timer) (st : State) :
  timer_task tm = ResizeKickTask ->
  fire tm st = if negb (documentMode st) then dispatch_resize (dequeued tm st)
               else dequeued tm st.
Proof. intros Ht. unfold fire. fold (dequeued tm st). now rewrite Ht. Qed.

Lemma wf_dequeued (tm : Timer) (st : State) : wf st -> wf (dequeued tm st).
Proof. intros Hwf. apply wf_observe, wf_set_now, wf_clearTimeout, Hwf. Qed.

Lemma timers_ids_inj (st : State) (x y : Timer) :
  wf st -> x ∈ timers st -> y ∈ timers st ->
  timer_id x = timer_id y -> x = y.
Proof.
  intros Hwf. pose proof (wf_nodup _ Hwf) as Hd. revert Hd.
  generalize (timers st) as l.
  induction l as [|z l IH]; intros Hd Hx Hy Hid; [inversion Hx|].
  rewrite fmap_cons in Hd. apply NoDup_cons in Hd as [Hz Hd].
  apply elem_of_cons in Hx as [->|Hx]; apply elem_of_cons in Hy as [->|Hy].
  - reflexivity.
  - exfalso. apply Hz. rewrite Hid. now apply list_elem_of_fmap_2.
  - exfalso. apply Hz. rewrite <- Hid. now apply list_elem_of_fmap_2.
  - now apply IH.
Qed.

(** What firing does to the trace: one more fired timer. *)
Lemma fired_timers_app (tr1 tr2 : list Obs) :
  fired_timers (tr1 ++ tr2) = fired_timers tr1 ++ fired_timers tr2.
Proof. unfold fired_timers. apply omap_app. Qed.

Lemma run_listener_keeps {A} (f : State -> A) :
  (forall v st, f (set_timers v st) = f st) ->
  (forall v st, f (set_next_timer v st) = f st) ->
  (forall v st, f (set_resizeRef v st) = f st) ->
  (forall v st, f (set_pixelWidthsRef v st) = f st) ->
  forall l st, f (run_listener l st) = f st.
Proof.
  intros H1 H2 H3 H4 l st.
  destruct l; cbn [run_listener];
    unfold shouldUseRowWidth, calculatepixelWidths, setTimeout,
      clearTimeout_if, clearTimeout;
    case_match; now rewrite ?H3, ?H4, ?H2, ?H1.
Qed.

Lemma dispatch_resize_keeps {A} (f : State -> A) :
  (forall v st, f (set_timers v st) = f st) ->
  (forall v st, f (set_next_timer v st) = f st) ->
  (forall v st, f (set_resizeRef v st) = f st) ->
  (forall v st, f (set_pixelWidthsRef v st) = f st) ->
  forall st, f (dispatch_resize st) = f st.
Proof.
  intros H1 H2 H3 H4 st. unfold dispatch_resize.
  generalize (listeners st) as ls. intros ls. revert st.
  induction ls as [|l ls IH]; intros st; cbn; [reflexivity|].
  rewrite IH. now apply run_listener_keeps.
Qed.

Lemma dispatch_resize_trace (st : State) :
  trace (dispatch_resize st) = trace st.
Proof. now apply dispatch_resize_keeps. Qed.

Lemma dispatch_resize_tableRef (st : State) :
  tableRef (dispatch_resize st) = tableRef st.
Proof. now apply dispatch_resize_keeps. Qed.


Lemma dispatch_resize_pixelWidths (st : State) :
  pixelWidths (dispatch_resize st) = pixelWidths st.
Proof. now apply dispatch_resize_keeps. Qed.

Lemma dispatch_resize_useRowWidth (st : State) :
  useRowWidth (dispatch_resize st) = useRowWidth st.
Proof. now apply dispatch_resize_keeps. Qed.

Lemma dispatch_resize_now (st : State) :
  now (dispatch_resize st) = now st.
Proof. now apply dispatch_resize_keeps. Qed.

Lemma dispatch_resize_listeners (st : State) :
  listeners (dispatch_resize st) = listeners st.
Proof. now apply dispatch_resize_keeps. Qed.

Lemma fire_fired_timers (tm : Timer) (st : State) :
  fired_timers (trace (fire tm st)) = fired_timers (trace st) ++ [tm].
Proof.
  destruct (timer_task tm) as [| |c|] eqn:Ht.
  - destruct (fire_reset tm st Ht) as [[h ->]| ->]; cbn.
    + now rewrite fired_timers_app.
    + now rewrite !fired_timers_app, app_nil_r.
  - rewrite (fire_rowWidth tm st Ht). destruct (rowWidthFlag _); cbn.
    + now rewrite !fired_timers_app, app_nil_r.
    + now rewrite !fired_timers_app, app_nil_r.
  - rewrite (fire_pixelWidths tm c st Ht). unfold pixelWidthsHelper.
    case_match.
    + rewrite setPixelWidths_trace. cbn.
      now rewrite !fired_timers_app, app_nil_r.
    + cbn. now rewrite fired_timers_app.
  - rewrite (fire_kick tm st Ht). case_match.
    + rewrite dispatch_resize_trace. cbn. now rewrite fired_timers_app.
    + cbn. now rewrite fired_timers_app.
Qed.

Lemma fire_tableRef (tm : Timer) (st : State) :
  tableRef (fire tm st) = tableRef st.
Proof.
  destruct (timer_task tm) as [| |c|] eqn:Ht.
  - destruct (fire_reset tm st Ht) as [[h ->]| ->]; reflexivity.
  - rewrite (fire_rowWidth tm st Ht). now destruct (rowWidthFlag _).
  - rewrite (fire_pixelWidths tm c st Ht). unfold pixelWidthsHelper.
    case_match; [now rewrite setPixelWidths_tableRef | reflexivity].
  - rewrite (fire_kick tm st Ht). case_match; [|reflexivity].
    now rewrite dispatch_resize_tableRef.
Qed.

Lemma filter_id_twice (id : Z) (l : list Timer) :
  filter (fun x => timer_id x <> id) (filter (fun x => timer_id x <> id) l)
  = filter (fun x => timer_id x <> id) l.
Proof. apply list_filter_filter_l. tauto. Qed.

Lemma fire_timers (tm : Timer) (st : State) :
  wf st -> tm ∈ timers st -> timer_kind tm <> KKick ->
  timers (fire tm st)
  = filter (fun x => timer_id x <> timer_id tm) (timers st).
Proof.
  intros Hwf Hin Hk. destruct (timer_task tm) as [| |c|] eqn:Ht.
  - destruct (fire_reset tm st Ht) as [[h ->]| ->]; reflexivity.
  - rewrite (fire_rowWidth tm st Ht). now destruct (rowWidthFlag _).
  - rewrite (fire_pixelWidths tm c st Ht). unfold pixelWidthsHelper.
    case_match; [|reflexivity].
    pose proof (wf_dequeued tm st Hwf) as Hwf0.
    destruct (wf_listeners _ Hwf0) as [[Hl _]|Hm].
    + now rewrite setPixelWidths_unmounted.
    + rewrite setPixelWidths_timers_mounted by assumption.
      change (pixelWidthsRef (dequeued tm st)) with (pixelWidthsRef st).
      change (timers (dequeued tm st))
        with (filter (fun x => timer_id x <> timer_id tm) (timers st)).
      pose proof (wf_owner _ Hwf) as Ho. rewrite Forall_forall in Ho.
      assert (Hid : timer_id tm = pixelWidthsRef st).
      { apply (Ho tm Hin KPixelWidths); [reflexivity|].
        unfold timer_kind. now rewrite Ht. }
      rewrite <- Hid. apply filter_id_twice.
  - exfalso. apply Hk. unfold timer_kind. now rewrite Ht.
Qed.

Lemma fire_kick_unmounted (tm : Timer) (st : State) :
  listeners st = [] -> timer_kind tm = KKick ->
  fire tm st = dequeued tm st.
Proof.
  intros Hl Hk. unfold timer_kind in Hk.
  destruct (timer_task tm) eqn:Ht; try discriminate.
  rewrite (fire_kick tm st Ht). case_match; [|reflexivity].
  now apply dispatch_resize_unmounted.
Qed.

(** ** Which timer fires next *)

Lemma earliest_elem (l : list Timer) (tm : Timer) :
  earliest l = Some tm ->
  tm ∈ l /\ forall x, x ∈ l -> timer_due tm <= timer_due x.
Proof.
  revert tm. induction l as [|y l IH]; intros tm; cbn; [discriminate|].
  destruct (earliest l) as [tm'|] eqn:E.
  - destruct (IH tm' eq_refl) as [Hin Hmin].
    destruct (timer_due tm' <? timer_due y) eqn:Hlt; intros [= <-].
    + apply Z.ltb_lt in Hlt. split; [now right|].
      intros x Hx. apply elem_of_cons in Hx as [->|Hx]; [lia|now apply Hmin].
    + apply Z.ltb_ge in Hlt. split; [now left|].
      intros x Hx. apply elem_of_cons in Hx as [->|Hx]; [lia|].
      specialize (Hmin x Hx). lia.
  - intros [= <-]. split; [now left|].
    intros x Hx. apply elem_of_cons in Hx as [->|Hx]; [lia|].
    destruct l; [inversion Hx|]. cbn in E.
    destruct (earliest l); [case_match|]; discriminate.
Qed.

Lemma earliest_none (l : list Timer) : earliest l = None -> l = [].
Proof.
  destruct l as [|y l]; [reflexivity|]. cbn.
  destruct (earliest l); [case_match|]; discriminate.
Qed.

Lemma next_due_some (t : Z) (st : State) (tm : Timer) :
  next_due t st = Some tm -> tm ∈ timers st /\ timer_due tm <= t.
Proof.
  unfold next_due. destruct (earliest (timers st)) as [tm'|] eqn:E;
    [|discriminate].
  destruct (timer_due tm' <=? t) eqn:Hle; intros [= <-].
  apply Z.leb_le in Hle. split; [|exact Hle]. now apply earliest_elem.
Qed.

Lemma next_due_none (t : Z) (st : State) :
  next_due t st = None -> forall tm, tm ∈ timers st -> t < timer_due tm.
Proof.
  unfold next_due. destruct (earliest (timers st)) as [tm'|] eqn:E.
  - destruct (timer_due tm' <=? t) eqn:Hle; [discriminate|]. intros _.
    apply Z.leb_gt in Hle. intros tm Htm.
    destruct (earliest_elem _ _ E) as [_ Hmin]. specialize (Hmin tm Htm). lia.
  - intros _ tm Htm. apply earliest_none in E. rewrite E in Htm.
    inversion Htm.
Qed.

Lemma run_due_ind (Q : State -> Prop) (t : Z) :
  (forall st tm, Q st -> tm ∈ timers st -> timer_due tm <= t ->
                 Q (fire tm st)) ->
  forall fuel st, Q st -> Q (run_due fuel t st).
Proof.
  intros Hstep fuel. induction fuel as [|fuel IH]; intros st HQ; cbn;
    [exact HQ|].
  destruct (next_due t st) as [tm|] eqn:E; [|exact HQ].
  apply next_due_some in E as [Hin Hdue]. now apply IH, Hstep.
Qed.

(** ** Every due timer fires *)


Lemma fuel_of_weight (st : State) : fuel_of st = weight (timers st).
Proof. reflexivity. Qed.


Lemma weight_cons (tm : Timer) (l : list Timer) :
  weight (tm :: l) = (cost tm + weight l)%nat.
Proof.
  unfold weight, cost. rewrite filter_cons.
  case_decide; cbn [length]; lia.
Qed.

Lemma weight_app (l1 l2 : list Timer) :
  weight (l1 ++ l2) = (weight l1 + weight l2)%nat.
Proof.
  induction l1 as [|tm l1 IH]; [reflexivity|].
  cbn [app]. rewrite !weight_cons, IH. lia.
Qed.

Lemma weight_filter (P : Timer -> Prop) `{forall x, Decision (P x)}
    (l : list Timer) :
  (weight (filter P l) <= weight l)%nat.
Proof.
  induction l as [|tm l IH]; [reflexivity|].
  rewrite filter_cons. case_decide; rewrite !weight_cons; lia.
Qed.

Lemma weight_remove (tm : Timer) (l : list Timer) :
  tm ∈ l ->
  (cost tm + weight (filter (fun x => timer_id x <> timer_id tm) l)
   <= weight l)%nat.
Proof.
  induction l as [|y l IH]; intros Hin; [inversion Hin|].
  apply elem_of_cons in Hin as [<-|Hin].
  - rewrite filter_cons_False by tauto. rewrite weight_cons.
    pose proof (weight_filter (fun x => timer_id x <> timer_id tm) l). lia.
  - specialize (IH Hin). rewrite filter_cons.
    case_decide; rewrite !weight_cons; lia.
Qed.

Lemma weight_clearTimeout_if (r : Z) (st : State) :
  (weight (timers (clearTimeout_if r st)) <= weight (timers st))%nat.
Proof.
  unfold clearTimeout_if. case_match; [reflexivity|]. apply weight_filter.
Qed.

Lemma weight_singleton (tm : Timer) :
  timer_kind tm <> KKick -> weight [tm] = 1%nat.
Proof.
  intros Hk. rewrite weight_cons. unfold cost.
  now rewrite decide_False by exact Hk.
Qed.

Lemma weight_run_listener (l : Listener) (st : State) :
  (weight (timers (run_listener l st)) <= 1 + weight (timers st))%nat.
Proof.
  pose proof (weight_clearTimeout_if (resizeRef st) st).
  pose proof (weight_clearTimeout_if (pixelWidthsRef st) st).
  destruct l; cbn [run_listener];
    unfold shouldUseRowWidth, calculatepixelWidths, setTimeout;
    cbn [timers set_resizeRef set_pixelWidthsRef set_next_timer set_timers];
    rewrite weight_app, weight_singleton by discriminate; lia.
Qed.

Lemma weight_dispatch_resize (st : State) :
  wf st -> (weight (timers (dispatch_resize st)) <= 2 + weight (timers st))%nat.
Proof.
  intros Hwf. destruct (wf_listeners _ Hwf) as [[Hl _]|Hm].
  - rewrite dispatch_resize_unmounted by exact Hl. lia.
  - unfold dispatch_resize. rewrite Hm. cbn [foldl].
    pose proof (weight_run_listener OnResize_shouldUseRowWidth st).
    pose proof (weight_run_listener
                  (OnResize_calculatepixelWidths (pixelWidths st))
                  (run_listener OnResize_shouldUseRowWidth st)).
    lia.
Qed.

Lemma weight_setPixelWidths (w : list Z) (st : State) :
  (weight (timers (setPixelWidths w st)) <= weight (timers st))%nat.
Proof.
  unfold setPixelWidths, effect_calculatepixelWidths,
    cleanup_calculatepixelWidths, addEventListener, removeEventListener.
  pose proof (weight_clearTimeout_if
                (pixelWidthsRef (observe (ObsSetPixelWidths w)
                                   (set_pixelWidths w st)))
                (observe (ObsSetPixelWidths w) (set_pixelWidths w st))) as H.
  repeat case_decide; cbn [timers set_listeners] in *; try exact H;
    reflexivity.
Qed.

Lemma fuel_fire (tm : Timer) (st : State) :
  wf st -> tm ∈ timers st -> (fuel_of (fire tm st) < fuel_of st)%nat.
Proof.
  intros Hwf Hin. rewrite !fuel_of_weight.
  pose proof (weight_remove tm (timers st) Hin) as Hrm.
  change (filter _ (timers st)) with (timers (dequeued tm st)) in Hrm.
  pose proof (wf_dequeued tm st Hwf) as Hwf0.
  unfold cost in Hrm.
  destruct (timer_task tm) as [| |c|] eqn:Ht;
    (destruct (decide (timer_kind tm = KKick)) as [Hk|Hk];
     [unfold timer_kind in Hk; rewrite Ht in Hk; try discriminate|]).
  - destruct (fire_reset tm st Ht) as [[h ->]| ->]; cbn [timers set_listRef observe] in *; lia.
  - rewrite (fire_rowWidth tm st Ht).
    destruct (rowWidthFlag _); cbn [timers setUseRowWidth set_useRowWidth observe] in *; lia.
  - rewrite (fire_pixelWidths tm c st Ht). unfold pixelWidthsHelper.
    pose proof (weight_setPixelWidths
                  (calculateColumnWidths (tableRef (dequeued tm st))
                     (remainingCols p) (fixedWidth p) (minColumnWidth p)
                     (columns p)) (dequeued tm st)).
    case_match; lia.
  - rewrite (fire_kick tm st Ht).
    pose proof (weight_dispatch_resize _ Hwf0). case_match; lia.
  - exfalso. apply Hk. unfold timer_kind. now rewrite Ht.
Qed.

Lemma run_due_complete (t : Z) (fuel : nat) (st : State) :
  wf st -> (fuel_of st <= fuel)%nat ->
  next_due t (run_due fuel t st) = None.
Proof.
  revert st. induction fuel as [|fuel IH]; intros st Hwf Hfuel.
  - cbn. unfold next_due.
    assert (Hnil : timers st = []).
    { rewrite fuel_of_weight in Hfuel. unfold weight in Hfuel.
      destruct (timers st); [reflexivity | cbn in Hfuel; lia]. }
    now rewrite Hnil.
  - cbn. destruct (next_due t st) as [tm|] eqn:E; [|exact E].
    apply next_due_some in E as [Hin _].
    apply IH; [now apply wf_fire|].
    pose proof (fuel_fire tm st Hwf Hin). lia.
Qed.

(** After [elapse], no timer is left that was due by then. *)
Lemma elapse_complete (dt : Z) (st : State) :
  wf st ->
  forall tm, tm ∈ timers (elapse dt st) -> now st + dt < timer_due tm.
Proof.
  intros Hwf tm Htm. unfold elapse in Htm. cbn [timers set_now] in Htm.
  eapply next_due_none; [|exact Htm].
  now apply run_due_complete.
Qed.

(** ** Teardown *)

Ltac unmount_fields :=
  unfold unmount, cleanup_timeoutRef, cleanup_calculatepixelWidths,
    cleanup_shouldUseRowWidth, removeEventListener, clearTimeout_if,
    clearTimeout;
  repeat case_match; reflexivity.

Lemma unmount_pixelWidths (st : State) :
  pixelWidths (unmount st) = pixelWidths st.
Proof. unmount_fields. Qed.

Lemma unmount_useRowWidth (st : State) :
  useRowWidth (unmount st) = useRowWidth st.
Proof. unmount_fields. Qed.

Lemma unmount_listRef (st : State) : listRef (unmount st) = listRef st.
Proof. unmount_fields. Qed.

Lemma unmount_trace (st : State) : trace (unmount st) = trace st.
Proof. unmount_fields. Qed.

Lemma unmount_next_timer (st : State) :
  next_timer (unmount st) = next_timer st.
Proof. unmount_fields. Qed.

Lemma unmount_refs (st : State) (k : Kind) :
  ref_of k (unmount st) = ref_of k st.
Proof. destruct k; cbn; unmount_fields. Qed.

Lemma unmount_listeners (st : State) :
  wf st -> listeners (unmount st) = [].
Proof.
  intros Hwf.
  assert (E : listeners (unmount st)
              = filter (fun l => l <> OnResize_calculatepixelWidths
                                        (pixelWidths st))
                  (filter (fun l => l <> OnResize_shouldUseRowWidth)
                     (listeners st))) by unmount_fields.
  rewrite E. destruct (wf_listeners _ Hwf) as [[-> _]| ->]; [reflexivity|].
  rewrite filter_cons_False by (intros Hne; now apply Hne).
  rewrite filter_cons_True by discriminate.
  rewrite filter_nil.
  now rewrite filter_cons_False by (intros Hne; now apply Hne).
Qed.

Lemma unmount_timers (st : State) :
  wf st ->
  timers (unmount st)
  = filter (fun tm => timer_id tm <> timeoutRef st)
      (filter (fun tm => timer_id tm <> pixelWidthsRef st)
         (filter (fun tm => timer_id tm <> resizeRef st) (timers st))).
Proof.
  intros Hwf. pose proof (wf_ids_positive _ Hwf) as Hpos.
  set (s1 := cleanup_shouldUseRowWidth st).
  set (s2 := cleanup_calculatepixelWidths (pixelWidths s1) s1).
  assert (T1 : timers s1
               = filter (fun tm => timer_id tm <> resizeRef st) (timers st)).
  { unfold s1, cleanup_shouldUseRowWidth, removeEventListener.
    cbn [timers set_listeners]. now apply timers_clearTimeout_if_pos. }
  assert (R1 : pixelWidthsRef s1 = pixelWidthsRef st).
  { unfold s1, cleanup_shouldUseRowWidth, removeEventListener,
      clearTimeout_if, clearTimeout. case_match; reflexivity. }
  assert (T2 : timers s2
               = filter (fun tm => timer_id tm <> pixelWidthsRef st)
                   (timers s1)).
  { unfold s2, cleanup_calculatepixelWidths, removeEventListener.
    cbn [timers set_listeners]. rewrite R1.
    apply timers_clearTimeout_if_pos. rewrite T1.
    now apply Forall_filter_keep. }
  assert (R2 : timeoutRef s2 = timeoutRef st).
  { unfold s2, s1, cleanup_calculatepixelWidths, cleanup_shouldUseRowWidth,
      removeEventListener, clearTimeout_if, clearTimeout.
    repeat case_match; reflexivity. }
  change (unmount st) with (cleanup_timeoutRef s2).
  unfold cleanup_timeoutRef. rewrite R2.
  rewrite timers_clearTimeout_if_pos.
  - now rewrite T2, T1.
  - rewrite T2, T1. now apply Forall_filter_keep, Forall_filter_keep.
Qed.

(** After teardown only a mount kick can still be pending. *)
Lemma unmount_only_kicks (st : State) :
  wf st -> forall tm, tm ∈ timers (unmount st) -> timer_kind tm = KKick.
Proof.
  intros Hwf tm. rewrite unmount_timers by exact Hwf. intros Htm.
  apply list_elem_of_filter in Htm as [H3 Htm].
  apply list_elem_of_filter in Htm as [H2 Htm].
  apply list_elem_of_filter in Htm as [H1 Htm].
  pose proof (wf_owner _ Hwf) as Ho. rewrite Forall_forall in Ho.
  specialize (Ho tm Htm).
  destruct (timer_kind tm) eqn:Hk; [| | |reflexivity]; exfalso.
  - apply H3. now apply (Ho KReset).
  - apply H1. now apply (Ho KRowWidth).
  - apply H2. now apply (Ho KPixelWidths).
Qed.

Lemma wf_unmount (st : State) : wf st -> wf (unmount st).
Proof.
  intros Hwf.
  pose proof (wf_filter (fun tm => timer_id tm <> timeoutRef st) _
    (wf_filter (fun tm => timer_id tm <> pixelWidthsRef st) _
      (wf_filter (fun tm => timer_id tm <> resizeRef st) _ Hwf))) as Hwf3.
  cbn [timers set_timers] in Hwf3.
  apply (wf_republish (fun tm => timer_id tm <> 0) _ (unmount st) Hwf3).
  - cbn [timers set_timers]. rewrite unmount_timers by exact Hwf.
    symmetry. apply filter_id_zero.
    apply (wf_ids_positive _ Hwf3).
  - now rewrite unmount_next_timer.
  - intros k. rewrite unmount_refs. destruct k; reflexivity.
  - apply pending_nil_iff. intros tm Htm.
    rewrite (unmount_only_kicks st Hwf tm Htm). discriminate.
  - left. now apply unmount_listeners.
Qed.


Lemma torn_down_unmount (st : State) : wf st -> torn_down st (unmount st).
Proof.
  intros Hwf. constructor.
  - now apply unmount_listeners.
  - now apply unmount_only_kicks.
  - apply unmount_pixelWidths.
  - apply unmount_useRowWidth.
  - apply unmount_listRef.
  - now rewrite unmount_trace.
  - intros k _. unfold fired. now rewrite unmount_trace.
Qed.

Lemma updates_app (tr1 tr2 : list Obs) :
  updates (tr1 ++ tr2) = updates tr1 ++ updates tr2.
Proof. unfold updates. apply List.filter_app. Qed.

Lemma fired_snoc (k : Kind) (tr : list Obs) (tm : Timer) :
  filter (fun x => timer_kind x = k) (fired_timers (tr ++ [ObsFired tm]))
  = filter (fun x => timer_kind x = k) (fired_timers tr)
    ++ (if decide (timer_kind tm = k) then [tm] else []).
Proof.
  rewrite fired_timers_app, filter_app. reflexivity.
Qed.

Lemma torn_down_fire (st0 st : State) (tm : Timer) :
  torn_down st0 st -> tm ∈ timers st -> torn_down st0 (fire tm st).
Proof.
  intros [Hl Ht Hp Hu Hh Hup Hf] Hin.
  rewrite (fire_kick_unmounted tm st Hl (Ht tm Hin)).
  constructor; cbn [dequeued observe set_now clearTimeout set_timers
                    listeners timers pixelWidths useRowWidth listRef trace];
    try assumption.
  - intros x Hx. apply list_elem_of_filter in Hx as [_ Hx]. now apply Ht.
  - rewrite updates_app, Hup. cbn. now rewrite app_nil_r.
  - intros k Hk. unfold fired, dequeued. cbn [trace observe set_now].
    rewrite fired_snoc. rewrite decide_False.
    + rewrite app_nil_r. now apply Hf.
    + rewrite (Ht tm Hin). congruence.
Qed.

Lemma torn_down_event (st0 st : State) (e : Event) :
  torn_down st0 st -> from_environment e -> torn_down st0 (run_event e st).
Proof.
  intros Htd He. destruct e as [dt|layout|i force]; [| |contradiction].
  - cbn [run_event]. unfold elapse.
    assert (Hrun : torn_down st0
                     (run_due (fuel_of st) (now st + dt) st)).
    { apply run_due_ind; [|exact Htd].
      intros s tm Hs Hin _. now apply torn_down_fire. }
    destruct Hrun. constructor; assumption.
  - cbn [run_event]. destruct Htd.
    rewrite dispatch_resize_unmounted by assumption.
    constructor; assumption.
Qed.

Lemma torn_down_events (st0 st : State) (es : list Event) :
  torn_down st0 st -> Forall from_environment es ->
  torn_down st0 (run_events es st).
Proof.
  intros Htd Hes. revert st Htd. unfold run_events.
  induction Hes as [|e es He _ IH]; intros st Htd; cbn; [exact Htd|].
  now apply IH, torn_down_event.
Qed.

(** C9: in every state that satisfies the component invariant [wf]
    (it holds from mount on, see [reachable_invariant]), teardown
    cancels every pending debounce timer (size-cache invalidation,
    row-width mode, column widths) and removes the resize listeners;
    whatever the environment does afterwards - time passing, resize
    events, a mount kick still firing - the engine handle, the width
    vector and the mode flag stay as teardown left them, no further
    state update is made and no further recomputation runs. *)
Theorem teardown_is_final (st : State) (es : list Event) :
  wf st ->
  Forall from_environment es ->
  (pending KReset (unmount st) = [] /\
   pending KRowWidth (unmount st) = [] /\
   pending KPixelWidths (unmount st) = [] /\
   listeners (unmount st) = []) /\
  (let st' := run_events es (unmount st) in
   listRef st' = listRef st /\
   pixelWidths st' = pixelWidths st /\
   useRowWidth st' = useRowWidth st /\
   updates (trace st') = updates (trace st) /\
   fired KReset st' = fired KReset st /\
   fired KRowWidth st' = fired KRowWidth st /\
   fired KPixelWidths st' = fired KPixelWidths st).
Proof.
  intros Hwf Hes. split.
  - pose proof (unmount_only_kicks st Hwf) as Hk.
    repeat split; try (apply pending_nil_iff; intros tm Htm;
                       rewrite (Hk tm Htm); discriminate).
    now apply unmount_listeners.
  - cbv zeta.
    destruct (torn_down_events st (unmount st) es
                (torn_down_unmount st Hwf) Hes)
      as [_ _ Hp Hu Hh Hup Hf].
    repeat split; try assumption; apply Hf; discriminate.
Qed.

(** ** Arming the debounce timers *)

Lemma shouldUseRowWidth_timers (st : State) :
  wf st ->
  timers (shouldUseRowWidth st)
  = filter (fun tm => timer_id tm <> resizeRef st) (timers st)
    ++ [mkTimer (next_timer st) (now st + 50) RowWidthTask].
Proof.
  intros Hwf. unfold shouldUseRowWidth, setTimeout.
  cbn [timers set_resizeRef set_next_timer set_timers].
  rewrite timers_clearTimeout_if by exact Hwf.
  now rewrite clearTimeout_if_next_timer, clearTimeout_if_now.
Qed.

Lemma calculatepixelWidths_timers (c : list Z) (st : State) :
  wf st ->
  timers (calculatepixelWidths c st)
  = filter (fun tm => timer_id tm <> pixelWidthsRef st) (timers st)
    ++ [mkTimer (next_timer st) (now st + 50) (PixelWidthsTask c)].
Proof.
  intros Hwf. unfold calculatepixelWidths, setTimeout.
  cbn [timers set_pixelWidthsRef set_next_timer set_timers].
  rewrite timers_clearTimeout_if by exact Hwf.
  now rewrite clearTimeout_if_next_timer, clearTimeout_if_now.
Qed.

Ltac handler_fields :=
  unfold shouldUseRowWidth, calculatepixelWidths, setTimeout,
    clearTimeout_if, clearTimeout;
  repeat case_match; reflexivity.

Lemma shouldUseRowWidth_next_timer (st : State) :
  next_timer (shouldUseRowWidth st) = next_timer st + 1.
Proof. handler_fields. Qed.

Lemma shouldUseRowWidth_now (st : State) :
  now (shouldUseRowWidth st) = now st.
Proof. handler_fields. Qed.

Lemma shouldUseRowWidth_resizeRef (st : State) :
  resizeRef (shouldUseRowWidth st) = next_timer st.
Proof. handler_fields. Qed.

Lemma shouldUseRowWidth_pixelWidthsRef (st : State) :
  pixelWidthsRef (shouldUseRowWidth st) = pixelWidthsRef st.
Proof. handler_fields. Qed.

Lemma calculatepixelWidths_resizeRef (c : list Z) (st : State) :
  resizeRef (calculatepixelWidths c st) = resizeRef st.
Proof. handler_fields. Qed.

Lemma calculatepixelWidths_pixelWidthsRef (c : list Z) (st : State) :
  pixelWidthsRef (calculatepixelWidths c st) = next_timer st.
Proof. handler_fields. Qed.


(** The timer table after a resize event reached a mounted component. *)
Lemma dispatch_resize_timers (st : State) :
  wf st -> mounted st ->
  timers (dispatch_resize st)
  = filter (fun tm => timer_id tm <> pixelWidthsRef st)
      (filter (fun tm => timer_id tm <> resizeRef st) (timers st))
    ++ [mkTimer (next_timer st) (now st + 50) RowWidthTask;
        mkTimer (next_timer st + 1) (now st + 50)
          (PixelWidthsTask (pixelWidths st))].
Proof.
  intros Hwf Hm. rewrite dispatch_resize_mounted by exact Hm.
  rewrite calculatepixelWidths_timers by now apply wf_shouldUseRowWidth.
  rewrite shouldUseRowWidth_timers by exact Hwf.
  rewrite shouldUseRowWidth_pixelWidthsRef, shouldUseRowWidth_next_timer,
    shouldUseRowWidth_now.
  rewrite filter_app, filter_cons_True, filter_nil.
  - now rewrite <- app_assoc.
  - cbn. pose proof (wf_refs _ Hwf KPixelWidths _ eq_refl). lia.
Qed.

Lemma filter_kind_cleared (k : Kind) (r : Z) (st : State)
    (l : list Timer) :
  wf st -> ref_of k st = Some r ->
  (forall tm, tm ∈ l -> tm ∈ timers st /\ timer_id tm <> r) ->
  filter (fun tm => timer_kind tm = k) l = [].
Proof.
  intros Hwf Hr Hl. apply filter_nil_iff. intros tm Htm Hk.
  destruct (Hl tm Htm) as [Hin Hne]. apply Hne.
  pose proof (wf_owner _ Hwf) as Ho. rewrite Forall_forall in Ho.
  now apply (Ho tm Hin k r Hr).
Qed.

Lemma dispatch_resize_pending (st : State) :
  wf st -> mounted st -> pending KKick st = [] ->
  pending KRowWidth (dispatch_resize st)
  = [mkTimer (next_timer st) (now st + 50) RowWidthTask] /\
  pending KPixelWidths (dispatch_resize st)
  = [mkTimer (next_timer st + 1) (now st + 50)
       (PixelWidthsTask (pixelWidths st))] /\
  pending KKick (dispatch_resize st) = [].
Proof.
  intros Hwf Hm Hk. unfold pending.
  rewrite dispatch_resize_timers by assumption.
  rewrite !filter_app.
  repeat split.
  - rewrite (filter_kind_cleared KRowWidth (resizeRef st) st);
      [reflexivity|exact Hwf|reflexivity|].
    intros tm Htm. apply list_elem_of_filter in Htm as [_ Htm].
    apply list_elem_of_filter in Htm as [Hne Htm]. now split.
  - rewrite (filter_kind_cleared KPixelWidths (pixelWidthsRef st) st);
      [reflexivity|exact Hwf|reflexivity|].
    intros tm Htm. apply list_elem_of_filter in Htm as [Hne Htm].
    apply list_elem_of_filter in Htm as [_ Htm]. now split.
  - rewrite pending_nil_iff in Hk.
    replace (filter (fun tm => timer_kind tm = KKick)
               (filter (fun tm => timer_id tm <> pixelWidthsRef st)
                  (filter (fun tm => timer_id tm <> resizeRef st)
                     (timers st)))) with (@nil Timer); [reflexivity|].
    symmetry. apply filter_nil_iff. intros tm Htm.
    apply list_elem_of_filter in Htm as [_ Htm].
    apply list_elem_of_filter in Htm as [_ Htm]. now apply Hk.
Qed.

Lemma dispatch_resize_refs (st : State) :
  mounted st ->
  resizeRef (dispatch_resize st) = next_timer st /\
  pixelWidthsRef (dispatch_resize st) = next_timer st + 1.
Proof.
  intros Hm. rewrite dispatch_resize_mounted by exact Hm.
  rewrite calculatepixelWidths_resizeRef, calculatepixelWidths_pixelWidthsRef.
  now rewrite shouldUseRowWidth_resizeRef, shouldUseRowWidth_next_timer.
Qed.

(** ** What a fired timer changes *)

Lemma filter_ext_elem {A} (P Q : A -> Prop) `{forall x, Decision (P x)}
    `{forall x, Decision (Q x)} (l : list A) :
  (forall x, x ∈ l -> (P x <-> Q x)) -> filter P l = filter Q l.
Proof.
  induction l as [|y l IH]; intros Hl; [reflexivity|].
  rewrite !filter_cons.
  assert (Hy : P y <-> Q y) by (apply Hl; now left).
  assert (IH' : filter P l = filter Q l)
    by (apply IH; intros x Hx; apply Hl; now right).
  destruct (decide (P y)), (decide (Q y)); try tauto; now rewrite IH'.
Qed.

Lemma fired_fire (k : Kind) (tm : Timer) (st : State) :
  fired k (fire tm st)
  = fired k st ++ (if decide (timer_kind tm = k) then [tm] else []).
Proof.
  unfold fired. rewrite fire_fired_timers, filter_app. reflexivity.
Qed.

Lemma pending_fire_other (k : Kind) (tm : Timer) (st : State) :
  wf st -> tm ∈ timers st -> timer_kind tm <> KKick -> timer_kind tm <> k ->
  pending k (fire tm st) = pending k st.
Proof.
  intros Hwf Hin Hkick Hk. unfold pending.
  rewrite fire_timers by assumption.
  rewrite list_filter_filter. apply filter_ext_elem.
  intros x Hxin. split; [tauto|]. intros Hx. split; [exact Hx|].
  intros Hid. apply Hk. rewrite <- Hx. f_equal. symmetry.
  now apply (timers_ids_inj st).
Qed.

Lemma pending_fire_same (tm : Timer) (st : State) :
  wf st -> tm ∈ timers st -> timer_kind tm <> KKick ->
  pending (timer_kind tm) (fire tm st) = [].
Proof.
  intros Hwf Hin Hkick. unfold pending.
  rewrite fire_timers by assumption.
  apply filter_nil_iff. intros x Hx Hk.
  apply list_elem_of_filter in Hx as [Hne Hx]. apply Hne.
  pose proof (wf_owner _ Hwf) as Ho. rewrite Forall_forall in Ho.
  destruct (ref_of (timer_kind tm) st) as [r|] eqn:Hr.
  - rewrite (proj2 (Ho x Hx _ r Hr) Hk).
    symmetry. now apply (Ho tm Hin _ r Hr).
  - destruct (timer_kind tm); try discriminate. now contradiction Hkick.
Qed.

Lemma fire_pixelWidths_other (tm : Timer) (st : State) :
  timer_kind tm <> KPixelWidths ->
  pixelWidths (fire tm st) = pixelWidths st.
Proof.
  intros Hk. destruct (timer_task tm) as [| |c|] eqn:Ht.
  - destruct (fire_reset tm st Ht) as [[h ->]| ->]; reflexivity.
  - rewrite (fire_rowWidth tm st Ht). now destruct (rowWidthFlag _).
  - exfalso. apply Hk. unfold timer_kind. now rewrite Ht.
  - rewrite (fire_kick tm st Ht). case_match; [|reflexivity].
    now rewrite dispatch_resize_pixelWidths.
Qed.

Lemma fire_useRowWidth_other (tm : Timer) (st : State) :
  timer_kind tm <> KRowWidth ->
  useRowWidth (fire tm st) = useRowWidth st.
Proof.
  intros Hk. destruct (timer_task tm) as [| |c|] eqn:Ht.
  - destruct (fire_reset tm st Ht) as [[h ->]| ->]; reflexivity.
  - exfalso. apply Hk. unfold timer_kind. now rewrite Ht.
  - rewrite (fire_pixelWidths tm c st Ht). unfold pixelWidthsHelper.
    case_match; [now rewrite setPixelWidths_useRowWidth | reflexivity].
  - rewrite (fire_kick tm st Ht). case_match; [|reflexivity].
    now rewrite dispatch_resize_useRowWidth.
Qed.

Lemma fire_useRowWidth_row (tm : Timer) (st : State) :
  timer_kind tm = KRowWidth ->
  useRowWidth (fire tm st) = published_flag (tableRef st) (useRowWidth st).
Proof.
  intros Hk. unfold timer_kind in Hk.
  destruct (timer_task tm) eqn:Ht; try discriminate.
  rewrite (fire_rowWidth tm st Ht). unfold published_flag.
  now destruct (rowWidthFlag _).
Qed.

Lemma fire_pixelWidths_pixel (tm : Timer) (st : State) :
  wf st -> tm ∈ timers st -> timer_kind tm = KPixelWidths ->
  pixelWidths (fire tm st)
  = calculateColumnWidths (tableRef st) (remainingCols p) (fixedWidth p)
      (minColumnWidth p) (columns p).
Proof.
  intros Hwf Hin Hk. unfold timer_kind in Hk.
  destruct (timer_task tm) as [| |c|] eqn:Ht; try discriminate.
  rewrite (fire_pixelWidths tm c st Ht).
  pose proof (wf_closure _ Hwf) as Hc. rewrite Forall_forall in Hc.
  rewrite (Hc tm Hin c Ht). unfold pixelWidthsHelper.
  change (tableRef (dequeued tm st)) with (tableRef st).
  destruct (arraysMatch _ (pixelWidths st)) eqn:E; cbn [negb].
  - symmetry. now apply arraysMatch_eq.
  - apply setPixelWidths_pixelWidths.
Qed.

Lemma fire_mounted (tm : Timer) (st : State) :
  mounted st -> mounted (fire tm st).
Proof.
  intros Hm. destruct (timer_task tm) as [| |c|] eqn:Ht.
  - destruct (fire_reset tm st Ht) as [[h ->]| ->]; exact Hm.
  - rewrite (fire_rowWidth tm st Ht). now destruct (rowWidthFlag _).
  - rewrite (fire_pixelWidths tm c st Ht). unfold pixelWidthsHelper.
    case_match; [|exact Hm]. now apply setPixelWidths_listeners_mounted.
  - rewrite (fire_kick tm st Ht). case_match; [|exact Hm].
    unfold mounted.
    now rewrite dispatch_resize_listeners, dispatch_resize_pixelWidths.
Qed.

Lemma in_pending (k : Kind) (tm : Timer) (st : State) :
  tm ∈ pending k st <-> timer_kind tm = k /\ tm ∈ timers st.
Proof.
  unfold pending.
  apply (list_elem_of_filter (fun x => timer_kind x = k)).
Qed.

(** ** Bursts of resize signals *)


Lemma armed_fire (st0 st : State) (tR tP tm : Timer) :
  armed st0 tR tP st -> tm ∈ timers st ->
  timer_due tm < timer_due tR -> timer_due tm < timer_due tP ->
  armed st0 tR tP (fire tm st).
Proof.
  intros [Hwf Hm Hnk Hr Hp Hfr Hfp Hpw Hu] Hin HdR HdP.
  assert (Hkind : timer_kind tm = KReset).
  { destruct (timer_kind tm) eqn:Hk; [reflexivity| | |]; exfalso.
    - assert (Hin' : tm ∈ pending KRowWidth st) by now apply in_pending.
      rewrite Hr in Hin'. apply list_elem_of_singleton in Hin'. subst. lia.
    - assert (Hin' : tm ∈ pending KPixelWidths st) by now apply in_pending.
      rewrite Hp in Hin'. apply list_elem_of_singleton in Hin'. subst. lia.
    - assert (Hin' : tm ∈ pending KKick st) by now apply in_pending.
      rewrite Hnk in Hin'. inversion Hin'. }
  constructor.
  - now apply wf_fire.
  - now apply fire_mounted.
  - rewrite pending_fire_other; try assumption; rewrite Hkind; discriminate.
  - rewrite pending_fire_other; try assumption; rewrite Hkind; discriminate.
  - rewrite pending_fire_other; try assumption; rewrite Hkind; discriminate.
  - rewrite fired_fire, Hkind, decide_False by discriminate.
    now rewrite app_nil_r.
  - rewrite fired_fire, Hkind, decide_False by discriminate.
    now rewrite app_nil_r.
  - rewrite fire_pixelWidths_other; [exact Hpw|]. rewrite Hkind. discriminate.
  - rewrite fire_useRowWidth_other; [exact Hu|]. rewrite Hkind. discriminate.
Qed.

Lemma armed_set_now (st0 st : State) (tR tP : Timer) (t : Z) :
  armed st0 tR tP st -> armed st0 tR tP (set_now t st).
Proof.
  intros [Hwf Hm Hnk Hr Hp Hfr Hfp Hpw Hu].
  constructor; try assumption. now apply wf_set_now.
Qed.

(** While less than the debounce delay passes, the armed timers stay. *)
Lemma armed_elapse (st0 st : State) (tR tP : Timer) (dt : Z) :
  armed st0 tR tP st ->
  now st + dt < timer_due tR -> now st + dt < timer_due tP ->
  armed st0 tR tP (elapse dt st).
Proof.
  intros Ha HdR HdP. unfold elapse. apply armed_set_now.
  apply run_due_ind; [|exact Ha].
  intros s tm Hs Hin Hdue. apply armed_fire; try assumption; lia.
Qed.

(** A resize signal arms both timers afresh. *)
Lemma signal_arms (st0 st : State) (layout : option TableNode) :
  wf st -> mounted st -> pending KKick st = [] ->
  fired KRowWidth st = fired KRowWidth st0 ->
  fired KPixelWidths st = fired KPixelWidths st0 ->
  pixelWidths st = pixelWidths st0 ->
  useRowWidth st = useRowWidth st0 ->
  let st' := run_event (Resize layout) st in
  exists tR tP,
    armed st0 tR tP st' /\
    timer_due tR = now st' + 50 /\ timer_due tP = now st' + 50 /\
    timer_id tR = resizeRef st' /\ timer_id tP = pixelWidthsRef st' /\
    timer_task tR = RowWidthTask /\
    timer_task tP = PixelWidthsTask (pixelWidths st0) /\
    tableRef st' = layout.
Proof.
  intros Hwf Hm Hnk Hfr Hfp Hpw Hu. cbv zeta. cbn [run_event].
  set (s := set_tableRef layout st).
  assert (Hwfs : wf s) by now apply wf_set_tableRef.
  assert (Hms : mounted s) by exact Hm.
  assert (Hnks : pending KKick s = []) by exact Hnk.
  destruct (dispatch_resize_pending s Hwfs Hms Hnks) as (Pr & Pp & Pk).
  destruct (dispatch_resize_refs s Hms) as (Rr & Rp).
  eexists _, _. split; [constructor|].
  - now apply wf_dispatch_resize.
  - unfold mounted.
    now rewrite dispatch_resize_listeners, dispatch_resize_pixelWidths.
  - exact Pk.
  - exact Pr.
  - exact Pp.
  - unfold fired. now rewrite dispatch_resize_trace.
  - unfold fired. now rewrite dispatch_resize_trace.
  - now rewrite dispatch_resize_pixelWidths.
  - now rewrite dispatch_resize_useRowWidth.
  - rewrite dispatch_resize_now, dispatch_resize_tableRef, Rr, Rp.
    cbn. rewrite <- Hpw. repeat split; reflexivity.
Qed.


Lemma burst_armed_step (st0 st : State) (layout : option TableNode)
    (s : Z * option TableNode) :
  burst_armed st0 layout st -> 0 <= fst s < 50 ->
  burst_armed st0 (snd s)
    (run_event (Resize (snd s)) (run_event (Elapse (fst s)) st)).
Proof.
  intros (tR & tP & Ha & HdR & HdP & _) Hgap. cbn [run_event].
  assert (Ha' : armed st0 tR tP (elapse (fst s) st))
    by (apply armed_elapse; [exact Ha|lia|lia]).
  destruct Ha' as [Hwf Hm Hnk _ _ Hfr Hfp Hpw Hu].
  now apply (signal_arms st0 (elapse (fst s) st) (snd s)).
Qed.

Lemma burst_armed_rest (st0 st : State) (layout : option TableNode)
    (rest : list (Z * option TableNode)) :
  burst_armed st0 layout st ->
  Forall (fun s => 0 <= fst s < 50) rest ->
  burst_armed st0 (foldl (fun _ s => snd s) layout rest)
    (foldl (fun st s =>
              run_event (Resize (snd s)) (run_event (Elapse (fst s)) st))
           st rest).
Proof.
  intros Hb Hrest. revert st layout Hb.
  induction Hrest as [|s rest Hs _ IH]; intros st layout Hb; cbn [foldl];
    [exact Hb|].
  apply IH. exact (burst_armed_step st0 st layout s Hb Hs).
Qed.

Lemma burst_is_armed (st : State) (first : option TableNode)
    (rest : list (Z * option TableNode)) :
  wf st -> mounted st -> pending KKick st = [] ->
  Forall (fun s => 0 <= fst s < 50) rest ->
  burst_armed st (last_layout first rest) (burst first rest st).
Proof.
  intros Hwf Hm Hnk Hrest. unfold burst, last_layout.
  apply burst_armed_rest; [|exact Hrest].
  now apply (signal_arms st st first).
Qed.


Lemma settling_fire (st0 st : State) (l : option TableNode)
    (tR tP tm : Timer) :
  settling st0 l tR tP st -> tm ∈ timers st ->
  settling st0 l tR tP (fire tm st).
Proof.
  intros [Hwf Hm Hnk Ht Hrow Hpix] Hin.
  assert (Hkick : timer_kind tm <> KKick).
  { intros Hk. assert (Hin' : tm ∈ pending KKick st) by now apply in_pending.
    rewrite Hnk in Hin'. inversion Hin'. }
  constructor.
  - now apply wf_fire.
  - now apply fire_mounted.
  - now rewrite pending_fire_other.
  - now rewrite fire_tableRef.
  - destruct (decide (timer_kind tm = KRowWidth)) as [Hk|Hk].
    + assert (Hin' : tm ∈ pending KRowWidth st) by now apply in_pending.
      destruct Hrow as [(Hp & Hf & Hu)|(Hp & _)];
        [|rewrite Hp in Hin'; inversion Hin'].
      rewrite Hp in Hin'. apply list_elem_of_singleton in Hin'. subst tm.
      right. repeat split.
      * rewrite <- Hk. now apply pending_fire_same.
      * rewrite fired_fire, decide_True by exact Hk. now rewrite Hf.
      * rewrite fire_useRowWidth_row by exact Hk. now rewrite Ht, Hu.
    + destruct Hrow as [(Hp & Hf & Hu)|(Hp & Hf & Hu)]; [left|right];
        (repeat split;
         [ now rewrite pending_fire_other
         | rewrite fired_fire, decide_False by exact Hk;
           now rewrite app_nil_r
         | now rewrite fire_useRowWidth_other ]).
  - destruct (decide (timer_kind tm = KPixelWidths)) as [Hk|Hk].
    + assert (Hin' : tm ∈ pending KPixelWidths st) by now apply in_pending.
      destruct Hpix as [(Hp & Hf & Hu)|(Hp & _)];
        [|rewrite Hp in Hin'; inversion Hin'].
      rewrite Hp in Hin'. apply list_elem_of_singleton in Hin'. subst tm.
      right. repeat split.
      * rewrite <- Hk. now apply pending_fire_same.
      * rewrite fired_fire, decide_True by exact Hk. now rewrite Hf.
      * rewrite fire_pixelWidths_pixel by assumption. now rewrite Ht.
    + destruct Hpix as [(Hp & Hf & Hu)|(Hp & Hf & Hu)]; [left|right];
        (repeat split;
         [ now rewrite pending_fire_other
         | rewrite fired_fire, decide_False by exact Hk;
           now rewrite app_nil_r
         | now rewrite fire_pixelWidths_other ]).
Qed.

Lemma armed_settling (st0 st : State) (tR tP : Timer) :
  armed st0 tR tP st -> settling st0 (tableRef st) tR tP st.
Proof.
  intros [Hwf Hm Hnk Hr Hp Hfr Hfp Hpw Hu].
  constructor; try assumption; try reflexivity; now left.
Qed.

(** Once the debounce delay has passed, each recomputation has run
    exactly once. *)
Lemma armed_settles (st0 st : State) (tR tP : Timer) (dt : Z) :
  armed st0 tR tP st ->
  timer_due tR <= now st + dt -> timer_due tP <= now st + dt ->
  let st' := elapse dt st in
  fired KRowWidth st' = fired KRowWidth st0 ++ [tR] /\
  fired KPixelWidths st' = fired KPixelWidths st0 ++ [tP] /\
  useRowWidth st' = published_flag (tableRef st) (useRowWidth st0) /\
  pixelWidths st'
  = calculateColumnWidths (tableRef st) (remainingCols p) (fixedWidth p)
      (minColumnWidth p) (columns p).
Proof.
  intros Ha HdR HdP. cbv zeta.
  pose proof (elapse_complete dt st (ar_wf _ _ _ _ Ha)) as Hdone.
  assert (Hs : settling st0 (tableRef st) tR tP (elapse dt st)).
  { unfold elapse.
    assert (Hrun : settling st0 (tableRef st) tR tP
                     (run_due (fuel_of st) (now st + dt) st)).
    { apply run_due_ind; [|now apply armed_settling].
      intros s tm Hsett Hin _. now apply settling_fire. }
    destruct Hrun. constructor; try assumption. now apply wf_set_now. }
  destruct Hs as [_ _ _ _ Hrow Hpix].
  destruct Hrow as [(Hp & _)|(_ & Hf & Hu)].
  { exfalso. assert (Hin : tR ∈ pending KRowWidth (elapse dt st))
      by (rewrite Hp; now left).
    apply in_pending in Hin as [_ Hin]. specialize (Hdone tR Hin). lia. }
  destruct Hpix as [(Hp & _)|(_ & Hf' & Hu')].
  { exfalso. assert (Hin : tP ∈ pending KPixelWidths (elapse dt st))
      by (rewrite Hp; now left).
    apply in_pending in Hin as [_ Hin]. specialize (Hdone tP Hin). lia. }
  now repeat split.
Qed.

(** C5: for a mounted component in a state that satisfies the invariant
    [wf], the mount kick delivered: a burst of one or more resize
    signals, each less than the debounce delay after the one before,
    followed by the delay, makes each debounced reaction run exactly
    once.  The timer that fires is the one the last signal armed (the
    ref holds its id, it is due 50 ms after that signal), and the flag
    and the width vector it publishes are computed from the layout of
    the last signal. *)
Theorem resize_burst_coalesces (st : State) (first : option TableNode)
    (rest : list (Z * option TableNode)) (dt : Z) :
  wf st -> mounted st -> pending KKick st = [] ->
  Forall (fun s => 0 <= fst s < 50) rest ->
  50 <= dt ->
  let last_signal := burst first rest st in
  let st' := elapse dt last_signal in
  let layout := last_layout first rest in
  (exists tR,
     fired KRowWidth st' = fired KRowWidth st ++ [tR] /\
     timer_task tR = RowWidthTask /\
     timer_id tR = resizeRef last_signal /\
     timer_due tR = now last_signal + 50) /\
  (exists tP,
     fired KPixelWidths st' = fired KPixelWidths st ++ [tP] /\
     timer_task tP = PixelWidthsTask (pixelWidths st) /\
     timer_id tP = pixelWidthsRef last_signal /\
     timer_due tP = now last_signal + 50) /\
  useRowWidth st' = published_flag layout (useRowWidth st) /\
  pixelWidths st'
  = calculateColumnWidths layout (remainingCols p) (fixedWidth p)
      (minColumnWidth p) (columns p).
Proof.
  intros Hwf Hm Hnk Hrest Hdt. cbv zeta.
  destruct (burst_is_armed st first rest Hwf Hm Hnk Hrest)
    as (tR & tP & Ha & HdR & HdP & HiR & HiP & HtR & HtP & Hl).
  destruct (armed_settles st (burst first rest st) tR tP dt Ha)
    as (Hfr & Hfp & Hu & Hpw); [lia|lia|].
  rewrite Hl in Hu, Hpw.
  split; [exists tR; now repeat split|].
  split; [exists tP; now repeat split|].
  now split.
Qed.

(** ** From mount on, the invariant holds *)

Lemma pixelWidthsHelper_unmounted (c : list Z) (st : State) :
  listeners st = [] -> listeners (pixelWidthsHelper c st) = [].
Proof.
  intros Hl. unfold pixelWidthsHelper. case_match; [|exact Hl].
  now rewrite setPixelWidths_unmounted.
Qed.

Lemma wf_mount (st st' : State) :
  wf st -> listeners st = [] -> mount st = Normal st' ->
  wf st' /\ mounted st'.
Proof.
  intros Hwf Hl. unfold mount.
  pose proof (wf_pixelWidthsHelper [] st Hwf) as Hwf1.
  pose proof (pixelWidthsHelper_unmounted [] st Hl) as Hl1.
  set (s1 := pixelWidthsHelper [] st) in *.
  unfold effect_initUseRowWidth.
  destruct (tableRef s1) as [t|]; [|discriminate].
  intros [= <-].
  set (s2 := setUseRowWidth _ s1).
  assert (Hwf2 : wf s2) by now apply wf_setUseRowWidth.
  assert (Hwf3 : wf (effect_resizeKick s2)) by now apply wf_resizeKick.
  apply (wf_register (effect_resizeKick s2) Hwf3). exact Hl1.
Qed.

Lemma clearSizeCache_mounted (i : Z) (force : bool) (st : State) :
  mounted st -> mounted (clearSizeCache i force st).
Proof.
  intros Hm. unfold clearSizeCache. destruct (listRef st); [|exact Hm].
  destruct force; unfold mounted, setTimeout, clearTimeout_if, clearTimeout;
    case_match; exact Hm.
Qed.

Lemma mounted_run_event (e : Event) (st : State) :
  mounted st -> mounted (run_event e st).
Proof.
  intros Hm. destruct e as [dt|layout|i force]; cbn [run_event].
  - unfold elapse.
    assert (Hrun : mounted (run_due (fuel_of st) (now st + dt) st)).
    { apply run_due_ind; [|exact Hm].
      intros s tm Hs _ _. now apply fire_mounted. }
    exact Hrun.
  - unfold mounted.
    now rewrite dispatch_resize_listeners, dispatch_resize_pixelWidths.
  - now apply clearSizeCache_mounted.
Qed.

(** Every state a mounted component goes through satisfies the
    invariant and keeps its two resize listeners registered. *)
Lemma reachable_invariant (t0 : Z) (docMode : bool)
    (h : option ListHandle) (t : option TableNode) (st : State)
    (es : list Event) :
  mount (initial t0 docMode h t) = Normal st ->
  wf (run_events es st) /\ mounted (run_events es st).
Proof.
  intros Hmount.
  destruct (wf_mount _ _ (wf_initial t0 docMode h t) eq_refl Hmount)
    as [Hwf Hm].
  clear Hmount. revert st Hwf Hm. unfold run_events.
  induction es as [|e es IH]; intros st Hwf Hm; cbn [foldl]; [now split|].
  apply IH; [now apply wf_run_event | now apply mounted_run_event].
Qed.

(** ** Positions, keys and sizes *)

(** X1: without a key extractor (or with one that never yields a key)
    the keys handed to the windowing engine are pairwise distinct: the
    header and every data position get different keys. *)
Theorem list_itemKey_injective (rows : list Row) (i j : Z) :
  (itemKey p = None \/ exists f, itemKey p = Some f /\ forall r, f r = None) ->
  list_itemKey i rows = list_itemKey j rows -> i = j.
Proof.
  intros Hkey.
  assert (Hfb : forall r d, generateKeyFromRow r d = TextNum d).
  { intros r d. apply generateKeyFromRow_fallback.
    destruct Hkey as [Hn|(f & Hf & Hall)]; [now left|].
    right. exists f. split; [exact Hf | apply Hall]. }
  unfold list_itemKey.
  destruct (i =? 0) eqn:Ei, (j =? 0) eqn:Ej; rewrite ?Hfb.
  - apply Z.eqb_eq in Ei, Ej. congruence.
  - discriminate.
  - discriminate.
  - intros [= ->]. reflexivity.
Qed.

(** X2: for a data position, the key handed to the windowing engine
    and the key with which [calculateHeight] looks the row up coincide
    exactly when the key extractor yields a key for that row. *)
Theorem keys_coincide_iff_extracted (index : Z) :
  index <> 0 ->
  (list_itemKey index (data p) = calculateHeight_key (index - 1) <->
   exists f k, itemKey p = Some f /\
               f (js_index (data p) (Some (index - 1))) = Some k).
Proof.
  intros Hidx. unfold list_itemKey, calculateHeight_key.
  destruct (index =? 0) eqn:E; [apply Z.eqb_eq in E; contradiction|].
  cbv zeta. unfold generateKeyFromRow.
  destruct (itemKey p) as [f|].
  - destruct (f (js_index (data p) (Some (index - 1)))) as [k|] eqn:Hk.
    + split; [intros _; now exists f, k | reflexivity].
    + split.
      * intros [= Heq]. lia.
      * intros (f' & k & [= <-] & Hk'). congruence.
  - split.
    + intros [= Heq]. lia.
    + intros (f & k & Hf & _). discriminate.
Qed.

(** X3: the positions that address a data row are exactly those
    strictly between the header position 0 and [itemCount]. *)
Theorem positions_address_rows (index : Z) :
  is_Some (js_index (data p) (Some (index - 1))) <->
  0 < index < list_itemCount.
Proof.
  unfold js_index, list_itemCount.
  destruct (index - 1 <? 0) eqn:E.
  - apply Z.ltb_lt in E. split; [intros [x Hx]; discriminate | lia].
  - apply Z.ltb_ge in E. rewrite lookup_lt_is_Some. lia.
Qed.

(** X4: for a data position whose row is not mounted, [itemSize]
    hands back to the windowing engine the size the engine's own offset
    table holds for that same position, whenever that size is not 0. *)
Theorem itemSize_returns_cached_size
    (findHeader : string -> option Element)
    (find : string -> Text -> option Element)
    (h : ListHandle) (index : Z) (m : ItemMetadata) :
  index <> 0 ->
  find (uuid p) (calculateHeight_key (index - 1)) = None ->
  itemMetadataMap h !! index = Some m ->
  size m <> 0 ->
  list_itemSize findHeader find (Some h) index = Normal (size m).
Proof.
  intros Hidx Hrow Hm Hsize. unfold list_itemSize.
  destruct (index =? 0) eqn:E; [apply Z.eqb_eq in E; contradiction|].
  f_equal. unfold calculateHeight. rewrite Hrow. cbn [js_succ].
  replace (index - 1 + 1) with index by lia. rewrite Hm. simpl.
  unfold js_or, truthy. simpl.
  destruct (size m =? 0) eqn:Es; [apply Z.eqb_eq in Es; contradiction|].
  reflexivity.
Qed.

(** X6: with a non-zero estimated row height, the height estimated for
    a row that is not mounted is never 0, whatever the handle holds. *)
Theorem unmounted_estimate_nonzero
    (find : string -> Text -> option Element)
    (l : option ListHandle) (i : Z) (o : option Z) :
  estimatedRowHeight p <> 0 ->
  find (uuid p) (calculateHeight_key i) = None ->
  calculateHeight find l (QIndex i) o <> 0 /\
  calculateHeight find l (QElement None) o <> 0.
Proof.
  intros Hest Hrow.
  assert (Hdef : defaultSize <> 0).
  { unfold defaultSize, js_or, truthy.
    destruct (rowHeight p) as [fixed|]; simpl; [|exact Hest].
    destruct (fixed =? 0) eqn:E; simpl; [exact Hest|].
    now apply Z.eqb_neq in E. }
  assert (Hslot : forall (hd : ListHandle) (k : Z),
            js_or (Some (size (default (mkItemMetadata 0 defaultSize)
                                 (itemMetadataMap hd !! k)))) defaultSize
            <> 0).
  { intros hd k. unfold js_or, truthy. simpl.
    destruct (size _ =? 0) eqn:E; simpl; [exact Hdef|].
    now apply Z.eqb_neq in E. }
  unfold calculateHeight. rewrite Hrow.
  destruct l as [hd|]; split; try exact Hdef; apply Hslot.
Qed.

(** X7: with a fixed non-zero row height, the height measured for a
    mounted row does not depend on its first child, and it is at least
    the fixed height when no child has a negative box height. *)
Theorem mounted_height_fixed_row
    (find : string -> Text -> option Element)
    (l : option ListHandle) (i : Z) (o : option Z)
    (r : Element) (fixed : Z) :
  rowHeight p = Some fixed -> fixed <> 0 ->
  find (uuid p) (calculateHeight_key i) = Some r ->
  (forall r', tail (children r') = tail (children r) ->
     calculateHeight find l (QElement (Some r')) o
     = calculateHeight find l (QIndex i) o) /\
  (Forall (fun c => 0 <= offsetHeight c) (children r) ->
   fixed <= calculateHeight find l (QIndex i) o).
Proof.
  intros Hfixed Hnz Hrow.
  assert (Ht : truthy (rowHeight p) = true).
  { rewrite Hfixed. unfold truthy.
    destruct (fixed =? 0) eqn:E; [apply Z.eqb_eq in E; contradiction|].
    reflexivity. }
  unfold calculateHeight. rewrite Hrow, Ht. split.
  - intros r' Htail. now rewrite Htail.
  - intros Hpos. unfold js_or. rewrite Ht, Hfixed. simpl.
    rewrite reduce_offsetHeight_sum.
    assert (Hsum : forall arr, Forall (fun c => 0 <= offsetHeight c) arr ->
                               0 <= sum_heights arr).
    { induction 1 as [|c arr Hc _ IH]; unfold sum_heights in *; cbn; lia. }
    assert (Htl : Forall (fun c => 0 <= offsetHeight c) (tail (children r))).
    { destruct (children r); [constructor|]. now inversion Hpos. }
    specialize (Hsum _ Htl). lia.
Qed.

(** ** The invalidation timer among the other timers *)

Lemma setPixelWidths_listRef (w : list Z) (st : State) :
  listRef (setPixelWidths w st) = listRef st.
Proof. state_fields. Qed.

Lemma dispatch_resize_listRef (st : State) :
  listRef (dispatch_resize st) = listRef st.
Proof. now apply dispatch_resize_keeps. Qed.

Lemma fire_listRef_other (tm : Timer) (st : State) :
  timer_kind tm <> KReset -> listRef (fire tm st) = listRef st.
Proof.
  intros Hk. destruct (timer_task tm) as [| |c|] eqn:Ht.
  - exfalso. apply Hk. unfold timer_kind. now rewrite Ht.
  - rewrite (fire_rowWidth tm st Ht). now destruct (rowWidthFlag _).
  - rewrite (fire_pixelWidths tm c st Ht). unfold pixelWidthsHelper.
    case_match; [now rewrite setPixelWidths_listRef | reflexivity].
  - rewrite (fire_kick tm st Ht). case_match; [|reflexivity].
    now rewrite dispatch_resize_listRef.
Qed.

Lemma fire_reset_listRef (tm : Timer) (st : State) (h : ListHandle)
    (index : option Z) :
  timer_kind tm = KReset -> listRef st = Some h ->
  resetIndex (tableRef st) = Normal index ->
  listRef (fire tm st) = Some (resetAfterIndex index h).
Proof.
  intros Hk Hh Hidx. unfold timer_kind in Hk.
  destruct (timer_task tm) eqn:Ht; try discriminate.
  unfold fire. rewrite Ht. cbn [run_task].
  cbn [tableRef listRef observe set_now clearTimeout set_timers].
  now rewrite Hidx, Hh.
Qed.

Lemma pending_dequeued_other (k : Kind) (tm : Timer) (st : State) :
  wf st -> tm ∈ timers st -> timer_kind tm <> k ->
  pending k (dequeued tm st) = pending k st.
Proof.
  intros Hwf Hin Hk. unfold pending, dequeued.
  cbn [timers observe set_now clearTimeout set_timers].
  rewrite list_filter_filter. apply filter_ext_elem.
  intros x Hxin. split; [tauto|]. intros Hx. split; [exact Hx|].
  intros Hid. apply Hk. rewrite <- Hx. f_equal. symmetry.
  now apply (timers_ids_inj st).
Qed.

(** A resize event leaves the timers of the other kinds alone. *)
Lemma pending_dispatch_resize (k : Kind) (st : State) :
  wf st -> k <> KRowWidth -> k <> KPixelWidths ->
  pending k (dispatch_resize st) = pending k st.
Proof.
  intros Hwf Hr Hp. destruct (wf_listeners _ Hwf) as [[Hl _]|Hm].
  - now rewrite dispatch_resize_unmounted.
  - unfold pending. rewrite dispatch_resize_timers by assumption.
    rewrite filter_app.
    rewrite filter_cons_False by (unfold timer_kind; cbn; congruence).
    rewrite filter_cons_False by (unfold timer_kind; cbn; congruence).
    rewrite filter_nil, app_nil_r.
    rewrite !list_filter_filter. apply filter_ext_elem.
    intros x Hx. split; [tauto|]. intros Hkx.
    pose proof (wf_owner _ Hwf) as Ho. rewrite Forall_forall in Ho.
    specialize (Ho x Hx). repeat split; try exact Hkx.
    + intros Hid. apply Hp. rewrite <- Hkx.
      now apply (Ho KPixelWidths (pixelWidthsRef st)).
    + intros Hid. apply Hr. rewrite <- Hkx.
      now apply (Ho KRowWidth (resizeRef st)).
Qed.

Lemma pending_fire_stable (k : Kind) (tm : Timer) (st : State) :
  wf st -> tm ∈ timers st -> timer_kind tm <> k ->
  k <> KRowWidth -> k <> KPixelWidths ->
  pending k (fire tm st) = pending k st.
Proof.
  intros Hwf Hin Hk Hr Hp.
  destruct (decide (timer_kind tm = KKick)) as [Hkick|Hkick].
  - unfold timer_kind in Hkick.
    destruct (timer_task tm) eqn:Ht; try discriminate.
    rewrite (fire_kick tm st Ht).
    case_match.
    + rewrite pending_dispatch_resize; try assumption;
        [now apply pending_dequeued_other | now apply wf_dequeued].
    + now apply pending_dequeued_other.
  - now apply pending_fire_other.
Qed.

(** The timer table after an unforced [clearSizeCache]. *)
Lemma clearSizeCache_debounced (i : Z) (st : State) (h : ListHandle) :
  wf st -> listRef st = Some h ->
  pending KReset (clearSizeCache i false st)
  = [mkTimer (next_timer st) (now st + 50) ResetTask] /\
  listRef (clearSizeCache i false st) = Some h /\
  tableRef (clearSizeCache i false st) = tableRef st /\
  now (clearSizeCache i false st) = now st.
Proof.
  intros Hwf Hh. unfold clearSizeCache. rewrite Hh. unfold setTimeout.
  cbn [pending timers set_timeoutRef set_next_timer set_timers listRef
       tableRef now].
  repeat split.
  - unfold pending. cbn [timers set_timeoutRef set_next_timer set_timers].
    rewrite timers_clearTimeout_if by exact Hwf.
    rewrite clearTimeout_if_next_timer, clearTimeout_if_now.
    rewrite filter_app.
    rewrite (filter_kind_cleared KReset (timeoutRef st) st);
      [reflexivity|exact Hwf|reflexivity|].
    intros tm Htm. apply list_elem_of_filter in Htm as [Hne Htm]. now split.
  - now rewrite clearTimeout_if_listRef.
  - unfold clearTimeout_if. case_match; reflexivity.
  - now rewrite clearTimeout_if_now.
Qed.

Lemma clearSizeCache_forced (i : Z) (st : State) (h : ListHandle) :
  wf st -> listRef st = Some h ->
  pending KReset (clearSizeCache i true st) = [] /\
  listRef (clearSizeCache i true st)
  = Some (resetAfterIndex (Some (i + 1)) h).
Proof.
  intros Hwf Hh. unfold clearSizeCache. rewrite Hh. split.
  - unfold pending. cbn [timers set_listRef].
    rewrite timers_clearTimeout_if by exact Hwf.
    apply (filter_kind_cleared KReset (timeoutRef st) st);
      [exact Hwf|reflexivity|].
    intros tm Htm. apply list_elem_of_filter in Htm as [Hne Htm]. now split.
  - cbn [listRef set_listRef]. now rewrite clearTimeout_if_listRef, Hh.
Qed.

(** An invalidation request leaves the timers of the other kinds
    alone. *)
Lemma pending_clearSizeCache_other (k : Kind) (i : Z) (force : bool)
    (st : State) :
  wf st -> k <> KReset ->
  pending k (clearSizeCache i force st) = pending k st.
Proof.
  intros Hwf Hk. unfold clearSizeCache.
  destruct (listRef st) as [h|]; [|reflexivity].
  assert (Hclear : filter (fun tm => timer_kind tm = k)
                     (timers (clearTimeout_if (timeoutRef st) st))
                   = pending k st).
  { rewrite timers_clearTimeout_if by exact Hwf.
    unfold pending. rewrite list_filter_filter. apply filter_ext_elem.
    intros x Hx. split; [tauto|]. intros Hkx. split; [exact Hkx|].
    intros Hid. apply Hk. rewrite <- Hkx.
    pose proof (wf_owner _ Hwf) as Ho. rewrite Forall_forall in Ho.
    now apply (Ho x Hx KReset (timeoutRef st)). }
  destruct force.
  - unfold pending. cbn [timers set_listRef]. exact Hclear.
  - unfold pending, setTimeout.
    cbn [timers set_timeoutRef set_next_timer set_timers].
    rewrite filter_app, Hclear.
    rewrite filter_cons_False by (unfold timer_kind; cbn; congruence).
    now rewrite filter_nil, app_nil_r.
Qed.

(** C4 (amended): in a state the component can be in, with the engine
    handle attached, a forced [clearSizeCache(dataIndex)] calls
    [resetAfterIndex(dataIndex + 1)] at once and leaves no invalidation
    timer pending, whatever was pending before; an unforced one calls
    nothing and leaves exactly one invalidation timer pending, the one
    it arms, due 50 ms later and held by [timeoutRef], so that a timer
    pending before the call is cancelled; neither touches the timers of
    the other kinds; and whenever an invalidation timer fires,
    [resetAfterIndex] is called with one plus the [data-index] of the
    first row under the inner element's second child, as the tree is
    then, whatever index was requested. *)
Theorem clearSizeCache_invalidates (st : State) (h : ListHandle)
    (dataIndex : Z) :
  wf st ->
  listRef st = Some h ->
  (let st' := clearSizeCache dataIndex true st in
   listRef st' = Some (resetAfterIndex (Some (dataIndex + 1)) h) /\
   pending KReset st' = [] /\
   (forall k, k <> KReset -> pending k st' = pending k st)) /\
  (let st' := clearSizeCache dataIndex false st in
   listRef st' = Some h /\
   timeoutRef st' = next_timer st /\
   pending KReset st'
   = [mkTimer (next_timer st) (now st + 50) ResetTask] /\
   (forall k, k <> KReset -> pending k st' = pending k st)) /\
  (forall (st2 : State) (h2 : ListHandle) (tm : Timer)
          (t : TableNode) (rows first : Element) (k : Z),
     timer_task tm = ResetTask ->
     listRef st2 = Some h2 ->
     tableRef st2 = Some t ->
     children (node t) !! 1%nat = Some rows ->
     children rows !! 0%nat = Some first ->
     dataset_index first = Some k ->
     listRef (fire tm st2) = Some (resetAfterIndex (Some (k + 1)) h2)).
Proof.
  intros Hwf Hh. cbv zeta.
  destruct (clearSizeCache_forced dataIndex st h Hwf Hh) as [Hfp Hfl].
  destruct (clearSizeCache_debounced dataIndex st h Hwf Hh)
    as (Hdp & Hdl & _ & _).
  split; [|split].
  - split; [exact Hfl|]. split; [exact Hfp|].
    intros k Hk. now apply pending_clearSizeCache_other.
  - split; [exact Hdl|]. split.
    + unfold clearSizeCache. rewrite Hh. unfold setTimeout.
      cbn [timeoutRef set_timeoutRef]. apply clearTimeout_if_next_timer.
    + split; [exact Hdp|].
      intros k Hk. now apply pending_clearSizeCache_other.
  - intros st2 h2 tm t rows first k Htask Hh2 Ht Hrows Hfirst Hk.
    unfold fire. rewrite Htask. cbn [run_task].
    cbn [tableRef observe set_now clearTimeout set_timers listRef].
    rewrite Ht. cbn [resetIndex]. rewrite Hrows, Hfirst, Hk, Hh2.
    reflexivity.
Qed.

Lemma reset_idle_fire (l : option ListHandle) (tm : Timer) (st : State) :
  reset_idle l st -> tm ∈ timers st -> reset_idle l (fire tm st).
Proof.
  intros (Hwf & Hp & Hl) Hin.
  assert (Hk : timer_kind tm <> KReset).
  { intros Hk. assert (Hin' : tm ∈ pending KReset st) by now apply in_pending.
    rewrite Hp in Hin'. inversion Hin'. }
  split; [|split].
  - now apply wf_fire.
  - rewrite pending_fire_stable; try assumption; discriminate.
  - now rewrite fire_listRef_other.
Qed.

Lemma reset_idle_event (l : option ListHandle) (e : Event) (st : State) :
  reset_idle l st -> from_environment e -> reset_idle l (run_event e st).
Proof.
  intros Hidle He. destruct e as [dt|layout|i force]; [| |contradiction].
  - cbn [run_event]. unfold elapse.
    assert (Hrun : reset_idle l (run_due (fuel_of st) (now st + dt) st)).
    { apply run_due_ind; [|exact Hidle].
      intros s tm Hs Hin _. now apply reset_idle_fire. }
    destruct Hrun as (Hwf & Hp & Hl).
    split; [now apply wf_set_now | split; [exact Hp | exact Hl]].
  - cbn [run_event]. destruct Hidle as (Hwf & Hp & Hl).
    assert (Hwf' : wf (set_tableRef layout st)) by now apply wf_set_tableRef.
    split; [|split].
    + now apply wf_dispatch_resize.
    + rewrite pending_dispatch_resize; try assumption; discriminate.
    + now rewrite dispatch_resize_listRef.
Qed.

Lemma reset_idle_events (l : option ListHandle) (es : list Event)
    (st : State) :
  reset_idle l st -> Forall from_environment es ->
  reset_idle l (run_events es st).
Proof.
  intros Hidle Hes. revert st Hidle. unfold run_events.
  induction Hes as [|e es He _ IH]; intros st Hidle; cbn; [exact Hidle|].
  now apply IH, reset_idle_event.
Qed.

(** X8: a resize event reaching a mounted component makes no state
    update and no call into the windowing engine; it leaves exactly one
    row-width timer and one column-width timer pending, both due 50 ms
    later, whatever was pending before, and does not touch a pending
    size-cache invalidation. *)
Theorem resize_event_only_arms (st : State) (layout : option TableNode) :
  wf st -> mounted st ->
  let st' := run_event (Resize layout) st in
  pixelWidths st' = pixelWidths st /\
  useRowWidth st' = useRowWidth st /\
  listRef st' = listRef st /\
  trace st' = trace st /\
  pending KRowWidth st'
  = [mkTimer (next_timer st) (now st + 50) RowWidthTask] /\
  pending KPixelWidths st'
  = [mkTimer (next_timer st + 1) (now st + 50)
       (PixelWidthsTask (pixelWidths st))] /\
  pending KReset st' = pending KReset st.
Proof.
  intros Hwf Hm. cbv zeta. cbn [run_event].
  set (s := set_tableRef layout st).
  assert (Hwfs : wf s) by now apply wf_set_tableRef.
  assert (Hms : mounted s) by exact Hm.
  rewrite dispatch_resize_pixelWidths, dispatch_resize_useRowWidth,
    dispatch_resize_listRef, dispatch_resize_trace.
  repeat split.
  - unfold pending. rewrite dispatch_resize_timers by assumption.
    rewrite filter_app.
    rewrite (filter_kind_cleared KRowWidth (resizeRef s) s);
      [reflexivity|exact Hwfs|reflexivity|].
    intros tm Htm. apply list_elem_of_filter in Htm as [_ Htm].
    apply list_elem_of_filter in Htm as [Hne Htm]. now split.
  - unfold pending. rewrite dispatch_resize_timers by assumption.
    rewrite filter_app.
    rewrite (filter_kind_cleared KPixelWidths (pixelWidthsRef s) s);
      [reflexivity|exact Hwfs|reflexivity|].
    intros tm Htm. apply list_elem_of_filter in Htm as [Hne Htm].
    apply list_elem_of_filter in Htm as [_ Htm]. now split.
  - rewrite pending_dispatch_resize; try assumption; try discriminate.
    reflexivity.
Qed.

(** X9: a forced [clearSizeCache] on an attached handle is final: it
    resets from [dataIndex + 1] at once and cancels the pending
    debounced invalidation, so that however much time passes and
    whatever resize events follow, the engine receives no further
    reset. *)
Theorem forced_invalidation_is_final (st : State) (h : ListHandle)
    (dataIndex : Z) (es : list Event) :
  wf st -> listRef st = Some h ->
  Forall from_environment es ->
  listRef (run_events es (clearSizeCache dataIndex true st))
  = Some (resetAfterIndex (Some (dataIndex + 1)) h) /\
  pending KReset (run_events es (clearSizeCache dataIndex true st)) = [].
Proof.
  intros Hwf Hh Hes.
  destruct (clearSizeCache_forced dataIndex st h Hwf Hh) as [Hp Hl].
  destruct (reset_idle_events
              (Some (resetAfterIndex (Some (dataIndex + 1)) h)) es
              (clearSizeCache dataIndex true st)) as (_ & Hp' & Hl');
    [|exact Hes|now split].
  split; [now apply wf_clearSizeCache | split; [exact Hp | exact Hl]].
Qed.

Lemma reset_pending_fire (h : ListHandle) (t : option TableNode)
    (tm x : Timer) (st : State) :
  reset_pending h t tm st -> x ∈ timers st ->
  timer_due x < timer_due tm ->
  reset_pending h t tm (fire x st).
Proof.
  intros (Hwf & Hh & Ht & Hp) Hin Hdue.
  assert (Hk : timer_kind x <> KReset).
  { intros Hk. assert (Hin' : x ∈ pending KReset st) by now apply in_pending.
    rewrite Hp in Hin'. apply list_elem_of_singleton in Hin'. subst. lia. }
  split; [|split; [|split]].
  - now apply wf_fire.
  - now rewrite fire_listRef_other.
  - now rewrite fire_tableRef.
  - rewrite pending_fire_stable; try assumption; discriminate.
Qed.

Lemma reset_pending_elapse (h : ListHandle) (t : option TableNode)
    (tm : Timer) (st : State) (dt : Z) :
  reset_pending h t tm st -> now st + dt < timer_due tm ->
  reset_pending h t tm (elapse dt st).
Proof.
  intros Hp Hdue. unfold elapse.
  assert (Hrun : reset_pending h t tm
                   (run_due (fuel_of st) (now st + dt) st)).
  { apply run_due_ind; [|exact Hp].
    intros s x Hs Hin Hx. apply reset_pending_fire; try assumption. lia. }
  destruct Hrun as (Hwf & Hh & Ht & Hpend).
  split; [now apply wf_set_now | now repeat split].
Qed.

Lemma reset_settled_fire (h : ListHandle) (t : option TableNode)
    (tm x : Timer) (index : option Z) (st : State) :
  resetIndex t = Normal index ->
  reset_settled h t tm index st -> x ∈ timers st ->
  reset_settled h t tm index (fire x st).
Proof.
  intros Hidx (Hwf & Ht & Hcase) Hin.
  split; [now apply wf_fire|]. split; [now rewrite fire_tableRef|].
  destruct (decide (timer_kind x = KReset)) as [Hk|Hk].
  - assert (Hin' : x ∈ pending KReset st) by now apply in_pending.
    destruct Hcase as [(Hp & Hh)|(Hp & _)];
      [|rewrite Hp in Hin'; inversion Hin'].
    rewrite Hp in Hin'. apply list_elem_of_singleton in Hin'. subst x.
    right. split.
    + rewrite <- Hk. apply pending_fire_same; try assumption.
      rewrite Hk. discriminate.
    + apply fire_reset_listRef; try assumption. now rewrite Ht.
  - destruct Hcase as [(Hp & Hh)|(Hp & Hh)]; [left|right];
      (split;
       [ rewrite pending_fire_stable; try assumption; discriminate
       | now rewrite fire_listRef_other ]).
Qed.

(** Once the debounce delay has passed, the pending invalidation has
    run. *)
Lemma reset_pending_settles (h : ListHandle) (t : option TableNode)
    (tm : Timer) (index : option Z) (st : State) (dt : Z) :
  resetIndex t = Normal index ->
  reset_pending h t tm st -> timer_due tm <= now st + dt ->
  listRef (elapse dt st) = Some (resetAfterIndex index h) /\
  pending KReset (elapse dt st) = [].
Proof.
  intros Hidx (Hwf & Hh & Ht & Hp) Hdue.
  pose proof (elapse_complete dt st Hwf) as Hdone.
  assert (Hrun : reset_settled h t tm index
                   (run_due (fuel_of st) (now st + dt) st)).
  { apply run_due_ind.
    - intros s x Hs Hin _. now apply reset_settled_fire.
    - split; [exact Hwf|]. split; [exact Ht|]. left. now split. }
  destruct Hrun as (_ & _ & [(Hp' & _)|(Hp' & Hh')]).
  - exfalso.
    assert (Hin : tm ∈ pending KReset (elapse dt st))
      by (unfold elapse, pending; cbn [timers set_now];
          unfold pending in Hp'; rewrite Hp'; now left).
    apply in_pending in Hin as [_ Hin]. specialize (Hdone tm Hin). lia.
  - split; [exact Hh' | exact Hp'].
Qed.

(** X10: a burst of one or more unforced [clearSizeCache] calls on an
    attached handle, each less than the debounce delay after the one
    before, followed by the delay, resets the engine exactly once, from
    the index read off the inner element as it is then; the indexes the
    calls asked for play no part. *)
Theorem invalidation_burst_coalesces (st : State) (h : ListHandle)
    (first : Z) (rest : list (Z * Z)) (dt : Z) (index : option Z) :
  wf st -> listRef st = Some h ->
  resetIndex (tableRef st) = Normal index ->
  Forall (fun s => 0 <= fst s < 50) rest ->
  50 <= dt ->
  let last_call :=
    foldl (fun st s => clearSizeCache (snd s) false (elapse (fst s) st))
          (clearSizeCache first false st) rest in
  listRef last_call = Some h /\
  listRef (elapse dt last_call) = Some (resetAfterIndex index h) /\
  pending KReset (elapse dt last_call) = [].
Proof.
  intros Hwf Hh Hidx Hrest Hdt. cbv zeta.
  assert (Harm : forall s, wf s -> listRef s = Some h ->
            tableRef s = tableRef st -> forall i,
            exists tm, reset_pending h (tableRef st) tm
                         (clearSizeCache i false s) /\
                       timer_due tm = now (clearSizeCache i false s) + 50).
  { intros s Hwfs Hhs Hts i.
    destruct (clearSizeCache_debounced i s h Hwfs Hhs) as (Hp & Hl & Ht & Hn).
    eexists. split.
    - split; [now apply wf_clearSizeCache|].
      split; [exact Hl|]. split; [congruence | exact Hp].
    - cbn. now rewrite Hn. }
  assert (Hburst : exists tm,
            reset_pending h (tableRef st) tm
              (foldl (fun st s =>
                        clearSizeCache (snd s) false (elapse (fst s) st))
                     (clearSizeCache first false st) rest) /\
            timer_due tm
            = now (foldl (fun st s =>
                            clearSizeCache (snd s) false (elapse (fst s) st))
                         (clearSizeCache first false st) rest) + 50).
  { generalize (Harm st Hwf Hh eq_refl first).
    generalize (clearSizeCache first false st) as s.
    induction Hrest as [|c rest Hc _ IH]; intros s Hs; cbn [foldl];
      [exact Hs|].
    apply IH. destruct Hs as (tm & Hp & Hdue).
    assert (Hp' : reset_pending h (tableRef st) tm (elapse (fst c) s))
      by (apply reset_pending_elapse; [exact Hp | lia]).
    destruct Hp' as (Hwf' & Hh' & Ht' & _).
    now apply Harm. }
  destruct Hburst as (tm & Hp & Hdue).
  split; [apply Hp|].
  apply (reset_pending_settles h (tableRef st) tm); [exact Hidx|exact Hp|lia].
Qed.

(** ** Invariants of the states a component goes through *)

Lemma same_id_at_most_one (l : list Timer) (id : Z) :
  NoDup (timer_id <$> l) -> (forall x, x ∈ l -> timer_id x = id) ->
  (length l <= 1)%nat.
Proof.
  destruct l as [|x [|y l]]; cbn; try lia.
  intros Hd Hall. exfalso.
  apply NoDup_cons in Hd as [Hx _]. apply Hx.
  rewrite (Hall x) by now left.
  rewrite <- (Hall y) by (right; now left). now left.
Qed.

(** X11: from mount on, whatever events follow, each debounced reaction
    (size-cache invalidation, row-width mode, column widths) has at most
    one timer pending, its id is the one the reaction's ref holds, and a
    pending column-width recomputation is the one that closed over the
    currently published width vector. *)
Theorem reachable_timers_unique (t0 : Z) (docMode : bool)
    (h : option ListHandle) (t : option TableNode) (st : State)
    (es : list Event) (k : Kind) :
  mount (initial t0 docMode h t) = Normal st ->
  k <> KKick ->
  let s := run_events es st in
  (length (pending k s) <= 1)%nat /\
  (forall tm, tm ∈ pending k s -> ref_of k s = Some (timer_id tm)) /\
  (forall tm c, tm ∈ timers s -> timer_task tm = PixelWidthsTask c ->
                c = pixelWidths s).
Proof.
  intros Hmount Hk. cbv zeta.
  destruct (reachable_invariant t0 docMode h t st es Hmount) as [Hwf _].
  set (s := run_events es st) in *.
  pose proof (wf_owner _ Hwf) as Ho. rewrite Forall_forall in Ho.
  pose proof (wf_closure _ Hwf) as Hc. rewrite Forall_forall in Hc.
  assert (Hr : exists r, ref_of k s = Some r)
    by (destruct k; try contradiction; eexists; reflexivity).
  destruct Hr as [r Hr].
  assert (Hid : forall tm, tm ∈ pending k s -> timer_id tm = r).
  { intros tm Htm. apply in_pending in Htm as [Hkind Htm].
    now apply (Ho tm Htm k r Hr). }
  split; [|split].
  - apply (same_id_at_most_one _ r); [|exact Hid].
    unfold pending. apply NoDup_ids_filter, (wf_nodup _ Hwf).
  - intros tm Htm. now rewrite (Hid tm Htm).
  - intros tm c Htm. now apply Hc.
Qed.

(** ** Timer callbacks that find the tree or the handle gone *)

(** X12: when the invalidation timer fires with no inner element
    attached it resets from position 1; with an inner element whose
    first mounted row has no numeric [data-index] it resets from NaN;
    when no row is mounted under the inner element's second child, or
    the list handle is gone, the callback throws, the exception is left
    uncaught and the engine receives no reset. *)
Theorem invalidation_timer_edge_cases (tm : Timer) (st : State) :
  timer_task tm = ResetTask ->
  (forall h, tableRef st = None -> listRef st = Some h ->
     listRef (fire tm st) = Some (resetAfterIndex (Some 1) h)) /\
  (forall h t rows first,
     tableRef st = Some t -> listRef st = Some h ->
     children (node t) !! 1%nat = Some rows ->
     children rows !! 0%nat = Some first ->
     dataset_index first = None ->
     listRef (fire tm st) = Some (resetAfterIndex None h)) /\
  (forall t,
     tableRef st = Some t ->
     children (node t) !! 1%nat ≫= (fun rows => children rows !! 0%nat)
     = None ->
     listRef (fire tm st) = listRef st /\
     trace (fire tm st)
     = trace st ++ [ObsFired tm; ObsUncaught (timer_id tm)]) /\
  (listRef st = None ->
   listRef (fire tm st) = None /\
   trace (fire tm st)
   = trace st ++ [ObsFired tm; ObsUncaught (timer_id tm)]).
Proof.
  intros Htask. unfold fire. rewrite Htask. cbn [run_task].
  cbn [tableRef listRef observe set_now clearTimeout set_timers].
  split; [|split; [|split]].
  - intros h -> ->. reflexivity.
  - intros h t rows first -> -> Hrows Hfirst Hidx. cbn [resetIndex].
    now rewrite Hrows, Hfirst, Hidx.
  - intros t -> Hnone. cbn [resetIndex].
    destruct (children (node t) !! 1%nat) as [rows|]; cbn in Hnone.
    + rewrite Hnone. cbn. now rewrite <- app_assoc.
    + cbn. now rewrite <- app_assoc.
  - intros Hnull. rewrite Hnull.
    destruct (resetIndex (tableRef st)); cbn; rewrite Hnull.
    all: now rewrite <- app_assoc.
Qed.

(** X13: when the row-width timer fires with no inner element attached
    it publishes [true] (the [NO_PARENT] default); when the inner
    element has no parent the callback throws, the exception is left
    uncaught and the flag keeps its value. *)
Theorem rowWidth_timer_edge_cases (tm : Timer) (st : State) :
  timer_task tm = RowWidthTask ->
  (tableRef st = None ->
   useRowWidth (fire tm st) = true /\
   trace (fire tm st) = trace st ++ [ObsFired tm; ObsSetUseRowWidth true]) /\
  (forall t, tableRef st = Some t -> parentElement t = None ->
     useRowWidth (fire tm st) = useRowWidth st /\
     trace (fire tm st)
     = trace st ++ [ObsFired tm; ObsUncaught (timer_id tm)]).
Proof.
  intros Htask. rewrite (fire_rowWidth tm st Htask). split.
  - intros ->. cbn. now rewrite <- app_assoc.
  - intros t -> Hp. unfold rowWidthFlag. cbn [default]. simpl.
    rewrite Hp. cbn. now rewrite <- app_assoc.
Qed.

(** ** Mount *)

Lemma pixelWidthsHelper_initial (t0 : Z) (docMode : bool)
    (h : option ListHandle) (t : option TableNode) :
  let s := pixelWidthsHelper [] (initial t0 docMode h t) in
  timers s = [] /\ listeners s = [] /\ next_timer s = 1 /\ now s = t0 /\
  documentMode s = docMode /\ tableRef s = t /\ listRef s = h /\
  pixelWidths s
  = calculateColumnWidths t (remainingCols p) (fixedWidth p)
      (minColumnWidth p) (columns p) /\
  fired_timers (trace s) = [].
Proof.
  cbv zeta. unfold pixelWidthsHelper.
  change (tableRef (initial t0 docMode h t)) with t.
  destruct (arraysMatch _ []) eqn:E; cbn [negb].
  - apply arraysMatch_eq in E. rewrite E. now repeat split.
  - rewrite setPixelWidths_unmounted by reflexivity. now repeat split.
Qed.

Lemma register_fields (st : State) :
  let st' := effect_calculatepixelWidths
               (pixelWidths (effect_shouldUseRowWidth st))
               (effect_shouldUseRowWidth st) in
  timers st' = timers st /\ next_timer st' = next_timer st /\
  now st' = now st /\ documentMode st' = documentMode st /\
  tableRef st' = tableRef st /\ listRef st' = listRef st /\
  pixelWidths st' = pixelWidths st /\ useRowWidth st' = useRowWidth st /\
  trace st' = trace st.
Proof.
  cbv zeta.
  unfold effect_shouldUseRowWidth, effect_calculatepixelWidths,
    addEventListener.
  repeat case_decide; now repeat split.
Qed.

(** The state a successful mount leaves. *)
Lemma mount_attached (t0 : Z) (docMode : bool) (h : option ListHandle)
    (nd : TableNode) :
  exists st,
    mount (initial t0 docMode h (Some nd)) = Normal st /\
    wf st /\ mounted st /\
    timers st = [mkTimer 1 (t0 + 0) ResizeKickTask] /\
    now st = t0 /\ documentMode st = docMode /\
    tableRef st = Some nd /\ listRef st = h /\
    pixelWidths st
    = calculateColumnWidths (Some nd) (remainingCols p) (fixedWidth p)
        (minColumnWidth p) (columns p) /\
    useRowWidth st = (scrollWidth (node nd) <=? clientWidth (node nd)) /\
    fired_timers (trace st) = [].
Proof.
  destruct (pixelWidthsHelper_initial t0 docMode h (Some nd))
    as (Ht & Hl & Hn & Hnow & Hdm & Htab & Hlist & Hpw & Hfired).
  assert (Hmount : exists st, mount (initial t0 docMode h (Some nd))
                              = Normal st).
  { unfold mount, effect_initUseRowWidth. rewrite Htab. now eexists. }
  destruct Hmount as [st Hmount]. exists st.
  destruct (wf_mount _ _ (wf_initial t0 docMode h (Some nd)) eq_refl Hmount)
    as [Hwf Hm].
  split; [exact Hmount|]. split; [exact Hwf|]. split; [exact Hm|].
  unfold mount, effect_initUseRowWidth in Hmount. rewrite Htab in Hmount.
  injection Hmount as <-.
  match goal with
  | |- context [effect_calculatepixelWidths _ (effect_shouldUseRowWidth ?s)] =>
      destruct (register_fields s)
        as (Et & _ & Enow & Edm & Etab & Elist & Epw & Eu & Etr)
  end.
  rewrite Et, Enow, Edm, Etab, Elist, Epw, Eu, Etr.
  unfold effect_resizeKick, setTimeout, setUseRowWidth.
  cbn [snd timers now documentMode tableRef listRef pixelWidths useRowWidth
       trace next_timer set_next_timer set_timers observe set_useRowWidth].
  rewrite Ht, Hn, Hnow, Hdm, Htab, Hlist, Hpw, fired_timers_app, Hfired.
  now repeat split.
Qed.

(** X14: mount fails exactly when the inner element is not attached
    (the first effect reads its widths).  When it is attached, mount
    publishes the column widths of the mounted container and the flag
    that compares the inner element's own scroll and client widths,
    registers both resize listeners and leaves one timer pending, the
    resize kick, due at once. *)
Theorem mount_establishes_layout (t0 : Z) (docMode : bool)
    (h : option ListHandle) (t : option TableNode) :
  (mount (initial t0 docMode h t) = Throw <-> t = None) /\
  (forall nd, t = Some nd ->
   exists st,
     mount (initial t0 docMode h t) = Normal st /\
     pixelWidths st
     = calculateColumnWidths (Some nd) (remainingCols p) (fixedWidth p)
         (minColumnWidth p) (columns p) /\
     (useRowWidth st = true <->
      scrollWidth (node nd) <= clientWidth (node nd)) /\
     mounted st /\
     timers st = [mkTimer 1 t0 ResizeKickTask]).
Proof.
  split.
  - destruct t as [nd|].
    + destruct (mount_attached t0 docMode h nd) as (st & Hmount & _).
      rewrite Hmount. split; discriminate.
    + split; [reflexivity|]. intros _. unfold mount, effect_initUseRowWidth.
      destruct (pixelWidthsHelper_initial t0 docMode h None)
        as (_ & _ & _ & _ & _ & Htab & _).
      now rewrite Htab.
  - intros nd ->.
    destruct (mount_attached t0 docMode h nd)
      as (st & Hmount & _ & Hm & Ht & _ & _ & _ & _ & Hpw & Hu & _).
    exists st. split; [exact Hmount|]. split; [exact Hpw|].
    split; [rewrite Hu; apply Z.leb_le|]. split; [exact Hm|].
    rewrite Ht. now rewrite Z.add_0_r.
Qed.

(** ** The resize kick *)

Lemma next_due_none_intro (t : Z) (st : State) :
  (forall tm, tm ∈ timers st -> t < timer_due tm) -> next_due t st = None.
Proof.
  intros Hall. unfold next_due.
  destruct (earliest (timers st)) as [tm|] eqn:E; [|reflexivity].
  apply earliest_elem in E as [Hin _]. specialize (Hall tm Hin).
  destruct (timer_due tm <=? t) eqn:Hle; [|reflexivity].
  apply Z.leb_le in Hle. lia.
Qed.

Lemma run_due_stop (fuel : nat) (t : Z) (st : State) :
  next_due t st = None -> run_due fuel t st = st.
Proof. intros H. destruct fuel; cbn; [reflexivity | now rewrite H]. Qed.

Lemma run_due_fire_only (fuel : nat) (t : Z) (tm : Timer) (st : State) :
  (0 < fuel)%nat -> next_due t st = Some tm ->
  next_due t (fire tm st) = None ->
  run_due fuel t st = fire tm st.
Proof.
  intros Hfuel Hnext Hstop. destruct fuel as [|fuel]; [lia|].
  cbn. rewrite Hnext. now apply run_due_stop.
Qed.

Lemma elapse_idle (dt : Z) (st : State) :
  timers st = [] ->
  elapse dt st = set_now (Z.max (now st) (now st + dt)) st.
Proof.
  intros Ht. unfold elapse. rewrite run_due_stop; [reflexivity|].
  apply next_due_none_intro. intros tm Htm. rewrite Ht in Htm.
  inversion Htm.
Qed.

(** The kick is the only timer a fresh mount has pending; delivering it
    arms both reactions, except in a browser with [documentMode]. *)
Lemma kick_delivered (t0 : Z) (docMode : bool) (h : option ListHandle)
    (nd : TableNode) (st : State) :
  mount (initial t0 docMode h (Some nd)) = Normal st ->
  let kick := mkTimer 1 (t0 + 0) ResizeKickTask in
  elapse 0 st = set_now (Z.max (now (fire kick st)) (t0 + 0)) (fire kick st) /\
  now (fire kick st) = t0 /\
  tableRef (fire kick st) = Some nd /\
  fired_timers (trace (fire kick st)) = [kick] /\
  pixelWidths (fire kick st) = pixelWidths st /\
  useRowWidth (fire kick st) = useRowWidth st /\
  if docMode then timers (fire kick st) = []
  else exists tR tP,
         armed st tR tP (fire kick st) /\
         timer_due tR = t0 + 50 /\ timer_due tP = t0 + 50.
Proof.
  intros Hmount. cbv zeta.
  destruct (mount_attached t0 docMode h nd)
    as (st' & Hmount' & Hwf & Hm & Ht & Hnow & Hdm & Htab & _ & _ & _ & Hfired).
  rewrite Hmount in Hmount'. injection Hmount' as <-.
  set (kick := mkTimer 1 (t0 + 0) ResizeKickTask).
  assert (Hin : kick ∈ timers st) by (rewrite Ht; now left).
  set (d := dequeued kick st).
  assert (Hwfd : wf d) by now apply wf_dequeued.
  assert (Hmd : mounted d) by exact Hm.
  assert (Htd : timers d = []).
  { unfold d, dequeued.
    cbn [timers observe set_now clearTimeout set_timers]. rewrite Ht.
    now rewrite filter_cons_False by (intros Hne; now apply Hne). }
  assert (Hnowd : now d = t0).
  { unfold d, dequeued. cbn. rewrite Hnow. lia. }
  assert (Hfire : fire kick st
                  = if negb docMode then dispatch_resize d else d).
  { rewrite (fire_kick kick st eq_refl). now rewrite Hdm. }
  assert (Hnowf : now (fire kick st) = t0).
  { rewrite Hfire. destruct docMode; cbn [negb];
      [exact Hnowd | now rewrite dispatch_resize_now]. }
  assert (Hstop : next_due (now st + 0) (fire kick st) = None).
  { apply next_due_none_intro. intros tm Htm. rewrite Hfire in Htm.
    destruct docMode; cbn [negb] in Htm.
    - rewrite Htd in Htm. inversion Htm.
    - rewrite dispatch_resize_timers in Htm by assumption.
      rewrite Htd, Hnowd in Htm. cbn in Htm.
      rewrite Hnow.
      apply elem_of_cons in Htm as [->|Htm]; [cbn; lia|].
      apply list_elem_of_singleton in Htm. subst tm. cbn. lia. }
  assert (Hnext : next_due (now st + 0) st = Some kick).
  { unfold next_due. rewrite Ht. cbn [earliest]. cbn [timer_due].
    rewrite Hnow. now rewrite Z.leb_refl. }
  split.
  { unfold elapse. rewrite (run_due_fire_only _ _ kick); try assumption.
    - now rewrite Hnow.
    - unfold fuel_of. rewrite Ht. cbn. lia. }
  split; [exact Hnowf|].
  split; [now rewrite fire_tableRef|].
  split; [rewrite fire_fired_timers, Hfired; reflexivity|].
  split; [now apply fire_pixelWidths_other|].
  split; [now apply fire_useRowWidth_other|].
  destruct docMode; rewrite Hfire; cbn [negb]; [exact Htd|].
  assert (Hkd : pending KKick d = [])
    by (unfold pending; now rewrite Htd).
  destruct (dispatch_resize_pending d Hwfd Hmd Hkd) as (Pr & Pp & Pk).
  eexists _, _. split; [constructor|].
  - now apply wf_dispatch_resize.
  - unfold mounted.
    now rewrite dispatch_resize_listeners, dispatch_resize_pixelWidths.
  - exact Pk.
  - exact Pr.
  - exact Pp.
  - unfold fired. rewrite dispatch_resize_trace. unfold d, dequeued.
    cbn [trace observe set_now clearTimeout set_timers].
    rewrite fired_timers_app, Hfired. reflexivity.
  - unfold fired. rewrite dispatch_resize_trace. unfold d, dequeued.
    cbn [trace observe set_now clearTimeout set_timers].
    rewrite fired_timers_app, Hfired. reflexivity.
  - now rewrite dispatch_resize_pixelWidths.
  - now rewrite dispatch_resize_useRowWidth.
  - cbn [timer_due]. rewrite Hnowd. now split.
Qed.

(** X15: the resize kick of the mount effect makes each debounced
    reaction run exactly once, 50 ms after mount, without any resize
    from the user; in a browser with [documentMode] the kick dispatches
    nothing, no timer is left and nothing is recomputed. *)
Theorem mount_kick_recomputes (t0 : Z) (docMode : bool)
    (h : option ListHandle) (nd : TableNode) (st : State) (dt : Z) :
  mount (initial t0 docMode h (Some nd)) = Normal st ->
  50 <= dt ->
  let st' := elapse dt (elapse 0 st) in
  if docMode then
    timers st' = [] /\
    fired KRowWidth st' = [] /\ fired KPixelWidths st' = [] /\
    useRowWidth st' = useRowWidth st /\ pixelWidths st' = pixelWidths st
  else
    (exists tR, fired KRowWidth st' = [tR] /\ timer_due tR = t0 + 50) /\
    (exists tP, fired KPixelWidths st' = [tP] /\ timer_due tP = t0 + 50) /\
    useRowWidth st' = published_flag (Some nd) (useRowWidth st) /\
    pixelWidths st'
    = calculateColumnWidths (Some nd) (remainingCols p) (fixedWidth p)
        (minColumnWidth p) (columns p).
Proof.
  intros Hmount Hdt. cbv zeta.
  destruct (mount_attached t0 docMode h nd)
    as (st0 & Hmount0 & _ & _ & _ & _ & _ & _ & _ & _ & _ & Hfired0).
  rewrite Hmount in Hmount0. injection Hmount0 as <-.
  destruct (kick_delivered t0 docMode h nd st Hmount)
    as (He & Hnow & Htab & Hfired & Hpw & Hu & Hcase).
  rewrite He. destruct docMode.
  - rewrite elapse_idle by exact Hcase.
    unfold fired. cbn [timers trace useRowWidth pixelWidths set_now].
    rewrite Hfired. now repeat split.
  - destruct Hcase as (tR & tP & Ha & HdR & HdP).
    set (s := set_now _ (fire _ st)).
    assert (Has : armed st tR tP s) by now apply armed_set_now.
    destruct (armed_settles st s tR tP dt Has) as (Hfr & Hfp & Hu' & Hpw').
    + unfold s. cbn [now set_now]. lia.
    + unfold s. cbn [now set_now]. lia.
    + assert (Hts : tableRef s = Some nd) by exact Htab.
      rewrite Hts in Hu', Hpw'.
      assert (Hr0 : fired KRowWidth st = [])
        by (unfold fired; now rewrite Hfired0).
      assert (Hp0 : fired KPixelWidths st = [])
        by (unfold fired; now rewrite Hfired0).
      rewrite Hr0 in Hfr. rewrite Hp0 in Hfp.
      split; [now exists tR|]. split; [now exists tP|]. now split.
Qed.

(** X16: while resize signals keep reaching a mounted component less
    than 50 ms apart, neither debounced reaction runs: however long the
    burst, no row-width or column-width timer has fired by its last
    signal and the published flag and width vector are still those from
    before the burst. *)
Theorem resize_burst_defers (st : State) (first : option TableNode)
    (rest : list (Z * option TableNode)) :
  wf st -> mounted st -> pending KKick st = [] ->
  Forall (fun s => 0 <= fst s < 50) rest ->
  let last_signal := burst first rest st in
  fired KRowWidth last_signal = fired KRowWidth st /\
  fired KPixelWidths last_signal = fired KPixelWidths st /\
  useRowWidth last_signal = useRowWidth st /\
  pixelWidths last_signal = pixelWidths st /\
  length (pending KRowWidth last_signal) = 1%nat /\
  length (pending KPixelWidths last_signal) = 1%nat.
Proof.
  intros Hwf Hm Hnk Hrest. cbv zeta.
  destruct (burst_is_armed st first rest Hwf Hm Hnk Hrest)
    as (tR & tP & [_ _ _ Hr Hp Hfr Hfp Hpw Hu] & _).
  rewrite Hr, Hp. now repeat split.
Qed.

End ListComponent.

(** ** The properties at the sample inputs *)

Lemma ex_mounted_wf (layout : TableNode) : wf (ex_mounted layout).
Proof.
  constructor; cbn.
  - lia.
  - intros [] r [= <-]; lia.
  - constructor.
  - constructor.
  - constructor.
  - constructor.
  - now right.
Qed.

Lemma generateKeyFromRow_resolves_witness :
  generateKeyFromRow ex_keyed_props (Some 10) 0 = TextNum 110 /\
  generateKeyFromRow ex_keyed_props (Some 20) 1 = TextNum 1 /\
  generateKeyFromRow ex_props (Some 10) 0 = TextNum 0.
Proof.
  split; [|split].
  - apply (proj1 (generateKeyFromRow_resolves ex_keyed_props (Some 10) 0)
             ex_itemKey); reflexivity.
  - apply (proj2 (generateKeyFromRow_resolves ex_keyed_props (Some 20) 1)).
    right. exists ex_itemKey. split; reflexivity.
  - apply (proj2 (generateKeyFromRow_resolves ex_props (Some 10) 0)).
    left. reflexivity.
Defined.

Lemma fallback_keys_differ_witness :
  list_itemKey ex_props 2 (data ex_props) = TextNum 2 /\
  calculateHeight_key ex_props (2 - 1) = TextNum (2 - 1) /\
  list_itemKey ex_props 2 (data ex_props)
  <> calculateHeight_key ex_props (2 - 1).
Proof.
  apply (fallback_keys_differ ex_props 2); [lia | left; reflexivity].
Defined.

Lemma calculateHeight_estimate_witness :
  calculateHeight ex_props (fun _ _ => None) None (QIndex 0) None = 30 /\
  calculateHeight ex_props (fun _ _ => None) (Some ex_handle) (QIndex 0) None
  = 55 /\
  calculateHeight ex_props (fun _ _ => Some ex_row) None (QIndex 0) None
  = 30 + 12.
Proof.
  split; [|split].
  - destruct (calculateHeight_estimate ex_props (fun _ _ => None) None 0 None)
      as (H & _).
    rewrite (H eq_refl eq_refl). reflexivity.
  - destruct (calculateHeight_estimate ex_props (fun _ _ => None)
                (Some ex_handle) 0 None) as (_ & H & _).
    rewrite (H ex_handle eq_refl eq_refl). reflexivity.
  - destruct (calculateHeight_estimate ex_props (fun _ _ => Some ex_row)
                None 0 None) as (_ & _ & H & _).
    rewrite (H ex_row eq_refl). reflexivity.
Defined.

(** C3, as stated, fails for a mounted row when a fixed row height is
    set: the row of 30 with a sub-component of 12 measures 42, not the
    fixed 30 plus the sum 42 over all its children. *)
Lemma calculateHeight_mounted_counterexample :
  calculateHeight ex_props (fun _ _ => Some ex_row) None (QIndex 0) None = 42 /\
  js_or (rowHeight ex_props) 0 + sum_heights (children ex_row) = 72 /\
  calculateHeight ex_props (fun _ _ => Some ex_row) None (QIndex 0) None
  <> js_or (rowHeight ex_props) 0 + sum_heights (children ex_row).
Proof. repeat split. vm_compute. discriminate. Qed.

Lemma detached_handle_is_noop_witness :
  clearSizeCache 5 false ex_detached = ex_detached /\
  clearSizeCache 5 true ex_detached = ex_detached /\
  calculateHeight ex_props (fun _ _ => None) (listRef ex_detached)
    (QIndex 1) None = 30.
Proof.
  destruct (detached_handle_is_noop ex_props ex_detached (fun _ _ => None)
              None eq_refl) as (Hclear & Hheight & _).
  split; [apply Hclear|]. split; [apply Hclear|].
  rewrite (Hheight 1 eq_refl). reflexivity.
Defined.

Lemma rowWidth_recomputation_flag_witness :
  (exists st',
     run_task ex_props RowWidthTask (ex_mounted (ex_table 1200 1000))
     = Normal st' /\ useRowWidth st' = false) /\
  (exists st',
     run_task ex_props RowWidthTask (ex_mounted (ex_table 800 1000))
     = Normal st' /\ useRowWidth st' = true).
Proof.
  split.
  - destruct (rowWidth_recomputation_flag ex_props
                (ex_mounted (ex_table 1200 1000)) (ex_table 1200 1000)
                (mkElement 0 1200 1000 None []) eq_refl eq_refl)
      as (st' & Hrun & _ & _ & H1200 & _).
    exists st'. split; [exact Hrun | now apply H1200].
  - destruct (rowWidth_recomputation_flag ex_props
                (ex_mounted (ex_table 800 1000)) (ex_table 800 1000)
                (mkElement 0 800 1000 None []) eq_refl eq_refl)
      as (st' & Hrun & _ & _ & _ & H800).
    exists st'. split; [exact Hrun | now apply H800].
Defined.

(** C1, as stated, fails: with a scroll width of 1200 against a client
    width of 1000 the recomputation publishes [useRowWidth = false],
    which the spec's data model reads as stretch-to-fill, where the
    claim has natural-width. *)
Lemma rowWidth_mode_counterexample :
  exists st',
    run_task ex_props RowWidthTask (ex_mounted (ex_table 1200 1000))
    = Normal st' /\
    useRowWidth st' = false /\
    spec_mode_of_flag (useRowWidth st') <> NaturalWidth.
Proof. eexists. split; [reflexivity|]. split; [reflexivity|discriminate]. Qed.

Lemma calculateColumnWidths_allocates_witness :
  let box := mkTableNode (mkElement 0 1000 1000 None []) None in
  let ws := calculateColumnWidths (Some box) (flexibleColumns_of ex_columns)
              (fixedTotalWidth_of ex_columns) 80 ex_columns in
  fixedTotalWidth_of ex_columns + sum_widths ws <= containerWidth box /\
  (forall w, w ∈ ws -> 80 <= w).
Proof.
  cbv zeta.
  destruct (calculateColumnWidths_allocates
              (mkTableNode (mkElement 0 1000 1000 None []) None)
              (flexibleColumns_of ex_columns) ex_columns
              (fixedTotalWidth_of ex_columns) 80)
    as ((_ & Hmin & Hsum & _) & _).
  split.
  - apply Hsum. vm_compute. discriminate.
  - intros w Hw. now apply Hmin.
Defined.

Lemma pixelWidthsHelper_idempotent_witness :
  pixelWidthsHelper ex_props [266; 266; 266] (ex_mounted (ex_table 1200 1000))
  = ex_mounted (ex_table 1200 1000).
Proof.
  apply (proj1 (pixelWidthsHelper_idempotent ex_props
                  (ex_mounted (ex_table 1200 1000)))).
  reflexivity.
Defined.

Lemma clearSizeCache_invalidates_witness :
  let st := clearSizeCache 5 false (ex_mounted (ex_table 1200 1000)) in
  pending KReset st = [mkTimer 1 50 ResetTask] /\
  listRef (clearSizeCache 3 true st)
  = Some (resetAfterIndex (Some (3 + 1)) ex_handle) /\
  pending KReset (clearSizeCache 3 true st) = [] /\
  timeoutRef (clearSizeCache 3 false st) = 2 /\
  pending KReset (clearSizeCache 3 false st) = [mkTimer 2 50 ResetTask] /\
  listRef (fire ex_props (mkTimer 2 50 ResetTask)
             (clearSizeCache 3 false st))
  = Some (resetAfterIndex (Some (3 + 1)) ex_handle).
Proof.
  cbv zeta.
  destruct (clearSizeCache_invalidates ex_props
              (clearSizeCache 5 false (ex_mounted (ex_table 1200 1000)))
              ex_handle 3)
    as ((Hfl & Hfp & _) & (_ & Href & Hdp & _) & Hfire).
  - apply wf_clearSizeCache, ex_mounted_wf.
  - reflexivity.
  - split; [reflexivity|]. split; [exact Hfl|]. split; [exact Hfp|].
    split; [exact Href|]. split; [exact Hdp|].
    apply (Hfire _ ex_handle (mkTimer 2 50 ResetTask) (ex_table 1200 1000)
             (mkElement 0 0 0 None [ex_row]) ex_row 3); reflexivity.
Defined.

(** C4, as stated, fails: a forced [clearSizeCache(3)] calls
    [resetAfterIndex(4)], not [resetAfterIndex(3)]. *)
Lemma clearSizeCache_forced_counterexample :
  resetAfterIndex_calls
    <$> listRef (clearSizeCache 3 true (ex_mounted (ex_table 1200 1000)))
  = Some [Some 4] /\
  resetAfterIndex_calls
    <$> listRef (clearSizeCache 3 true (ex_mounted (ex_table 1200 1000)))
  <> Some [Some 3].
Proof. split; [reflexivity | discriminate]. Qed.

Lemma teardown_is_final_witness :
  let st := run_event ex_props (Resize (Some (ex_table 1200 1000)))
              (ex_mounted (ex_table 800 1000)) in
  let st' := run_events ex_props
               [Elapse 100; Resize (Some (ex_table 800 1000)); Elapse 100]
               (unmount st) in
  length (timers st) = 2%nat /\
  timers (unmount st) = [] /\
  listeners (unmount st) = [] /\
  useRowWidth st' = useRowWidth st /\
  pixelWidths st' = pixelWidths st /\
  listRef st' = listRef st.
Proof.
  cbv zeta.
  destruct (teardown_is_final ex_props
              (run_event ex_props (Resize (Some (ex_table 1200 1000)))
                 (ex_mounted (ex_table 800 1000)))
              [Elapse 100; Resize (Some (ex_table 800 1000)); Elapse 100])
    as ((_ & _ & _ & Hl) & (Hh & Hpw & Hu & _)).
  - apply wf_run_event, ex_mounted_wf.
  - repeat constructor.
  - repeat split; try assumption; reflexivity.
Defined.

Lemma resize_burst_coalesces_witness :
  let st := ex_mounted (ex_table 800 1000) in
  let st' := elapse ex_props 50
               (burst ex_props (Some (ex_table 900 1000))
                  [(10, Some (ex_table 1100 1000));
                   (49, Some (ex_table 1200 1000))] st) in
  length (fired KRowWidth st') = 1%nat /\
  length (fired KPixelWidths st') = 1%nat /\
  useRowWidth st' = false /\
  pixelWidths st' = [266; 266; 266].
Proof.
  cbv zeta.
  destruct (resize_burst_coalesces ex_props (ex_mounted (ex_table 800 1000))
              (Some (ex_table 900 1000))
              [(10, Some (ex_table 1100 1000));
               (49, Some (ex_table 1200 1000))] 50)
    as ((tR & HfR & _) & (tP & HfP & _) & Hu & Hpw).
  - apply ex_mounted_wf.
  - reflexivity.
  - reflexivity.
  - repeat constructor; cbn; lia.
  - lia.
  - rewrite HfR, HfP, Hu, Hpw. repeat split.
Defined.

(** ** A fixed row height of 0 *)

(** X17: a fixed row height of 0 counts as no fixed row height: every
    call of [calculateHeight] returns what it returns when [rowHeight]
    is left out. *)
Theorem zero_rowHeight_is_unset {Row : Type} (p : ListProps Row)
    (find : string -> Text -> option Element) (l : option ListHandle)
    (q : QueryParam) (o : option Z) :
  rowHeight p = Some 0 ->
  calculateHeight p find l q o
  = calculateHeight (with_rowHeight None p) find l q o.
Proof.
  intros Hzero. unfold calculateHeight, calculateHeight_key,
    generateKeyFromRow, defaultSize, with_rowHeight.
  cbn [data itemKey rowHeight estimatedRowHeight uuid].
  rewrite Hzero. reflexivity.
Qed.

(** ** Further properties at the sample inputs *)

Lemma ex_at_wf (t : option TableNode) : wf (ex_at t).
Proof.
  constructor; cbn.
  - lia.
  - intros [] r [= <-]; lia.
  - constructor.
  - constructor.
  - constructor.
  - constructor.
  - now right.
Qed.

Lemma ex_fresh_mount (docMode : bool) :
  mount ex_props
    (initial 0 docMode (Some ex_handle) (Some (ex_table 1200 1000)))
  = Normal (ex_fresh docMode).
Proof. destruct docMode; vm_compute; reflexivity. Qed.

Lemma list_itemKey_injective_witness :
  list_itemKey ex_props 2 (data ex_props)
  = list_itemKey ex_props (1 + 1) (data ex_props) /\
  2 = 1 + 1.
Proof.
  split; [reflexivity|].
  apply (list_itemKey_injective ex_props (data ex_props) 2 (1 + 1));
    [left; reflexivity | reflexivity].
Defined.

Lemma keys_coincide_iff_extracted_witness :
  list_itemKey ex_keyed_props 1 (data ex_keyed_props)
  = calculateHeight_key ex_keyed_props (1 - 1) /\
  list_itemKey ex_keyed_props 2 (data ex_keyed_props)
  <> calculateHeight_key ex_keyed_props (2 - 1).
Proof.
  split.
  - apply (proj2 (keys_coincide_iff_extracted ex_keyed_props 1 ltac:(lia))).
    exists ex_itemKey, (TextNum 110). split; reflexivity.
  - intros Heq.
    apply (proj1 (keys_coincide_iff_extracted ex_keyed_props 2 ltac:(lia)))
      in Heq as (f & k & [= <-] & Hk).
    discriminate.
Defined.

Lemma itemSize_returns_cached_size_witness :
  list_itemSize ex_props (fun _ => None) (fun _ _ => None) (Some ex_handle) 1
  = Normal 55.
Proof.
  apply (itemSize_returns_cached_size ex_props (fun _ => None)
           (fun _ _ => None) ex_handle 1 (mkItemMetadata 32 55));
    [lia | reflexivity | reflexivity | cbn; lia].
Defined.

Lemma unmounted_estimate_nonzero_witness :
  estimatedRowHeight ex_props = 37 /\
  calculateHeight ex_props (fun _ _ => None) (Some ex_handle) (QIndex 2) None
  <> 0.
Proof.
  split; [reflexivity|].
  apply (unmounted_estimate_nonzero ex_props (fun _ _ => None)
           (Some ex_handle) 2 None); [vm_compute; discriminate | reflexivity].
Defined.

Lemma mounted_height_fixed_row_witness :
  30 <= calculateHeight ex_props (fun _ _ => Some ex_row) None (QIndex 0) None.
Proof.
  apply (mounted_height_fixed_row ex_props (fun _ _ => Some ex_row) None 0
           None ex_row 30); [reflexivity | lia | reflexivity |].
  repeat constructor; cbn; lia.
Defined.

Lemma resize_event_only_arms_witness :
  let st := ex_mounted (ex_table 800 1000) in
  let st' := run_event ex_props (Resize (Some (ex_table 1200 1000))) st in
  useRowWidth st' = true /\ trace st' = [] /\
  pending KRowWidth st' = [mkTimer 1 50 RowWidthTask] /\
  pending KPixelWidths st' = [mkTimer 2 50 (PixelWidthsTask [])].
Proof.
  cbv zeta.
  destruct (resize_event_only_arms ex_props (ex_mounted (ex_table 800 1000))
              (Some (ex_table 1200 1000)))
    as (_ & Hu & _ & Htr & Hr & Hp & _).
  - apply ex_mounted_wf.
  - reflexivity.
  - rewrite Hu, Htr, Hr, Hp. repeat split.
Defined.

Lemma forced_invalidation_is_final_witness :
  resetAfterIndex_calls
    <$> listRef
          (run_events ex_props
             [Elapse 100; Resize (Some (ex_table 800 1000)); Elapse 100]
             (clearSizeCache 3 true
                (clearSizeCache 5 false (ex_mounted (ex_table 1200 1000)))))
  = Some [Some 4].
Proof.
  destruct (forced_invalidation_is_final ex_props
              (clearSizeCache 5 false (ex_mounted (ex_table 1200 1000)))
              ex_handle 3
              [Elapse 100; Resize (Some (ex_table 800 1000)); Elapse 100])
    as (Hl & _).
  - apply wf_clearSizeCache, ex_mounted_wf.
  - reflexivity.
  - repeat constructor.
  - rewrite Hl. reflexivity.
Defined.

Lemma invalidation_burst_coalesces_witness :
  resetAfterIndex_calls
    <$> listRef
          (elapse ex_props 50
             (foldl
                (fun st s =>
                   clearSizeCache (snd s) false (elapse ex_props (fst s) st))
                (clearSizeCache 7 false (ex_mounted (ex_table 1200 1000)))
                [(10, 2); (20, 9)]))
  = Some [Some 4].
Proof.
  destruct (invalidation_burst_coalesces ex_props
              (ex_mounted (ex_table 1200 1000)) ex_handle 7
              [(10, 2); (20, 9)] 50 (Some 4))
    as (_ & Hl & _).
  - apply ex_mounted_wf.
  - reflexivity.
  - reflexivity.
  - repeat constructor; cbn; lia.
  - lia.
  - rewrite Hl. reflexivity.
Defined.

Lemma reachable_timers_unique_witness :
  let s := run_events ex_props
             [Elapse 0; Resize (Some (ex_table 800 1000)); Elapse 10;
              Resize (Some (ex_table 900 1000)); ClearSizeCache 4 false]
             (ex_fresh false) in
  (length (pending KRowWidth s) <= 1)%nat /\
  (length (pending KPixelWidths s) <= 1)%nat /\
  (length (pending KReset s) <= 1)%nat.
Proof.
  cbv zeta. repeat split.
  - apply (reachable_timers_unique ex_props 0 false (Some ex_handle)
             (Some (ex_table 1200 1000)) (ex_fresh false) _ KRowWidth
             (ex_fresh_mount false)).
    discriminate.
  - apply (reachable_timers_unique ex_props 0 false (Some ex_handle)
             (Some (ex_table 1200 1000)) (ex_fresh false) _ KPixelWidths
             (ex_fresh_mount false)).
    discriminate.
  - apply (reachable_timers_unique ex_props 0 false (Some ex_handle)
             (Some (ex_table 1200 1000)) (ex_fresh false) _ KReset
             (ex_fresh_mount false)).
    discriminate.
Defined.

Lemma invalidation_timer_edge_cases_witness :
  resetAfterIndex_calls
    <$> listRef (fire ex_props (mkTimer 1 50 ResetTask) (ex_at None))
  = Some [Some 1] /\
  listRef (fire ex_props (mkTimer 1 50 ResetTask)
             (ex_at (Some ex_empty_table)))
  = Some ex_handle.
Proof.
  destruct (invalidation_timer_edge_cases ex_props (mkTimer 1 50 ResetTask)
              (ex_at None) eq_refl) as (Hnone & _).
  destruct (invalidation_timer_edge_cases ex_props (mkTimer 1 50 ResetTask)
              (ex_at (Some ex_empty_table)) eq_refl) as (_ & _ & Hempty & _).
  split.
  - rewrite (Hnone ex_handle eq_refl eq_refl). reflexivity.
  - apply (Hempty ex_empty_table eq_refl eq_refl).
Defined.

Lemma rowWidth_timer_edge_cases_witness :
  useRowWidth (fire ex_props (mkTimer 1 50 RowWidthTask) (ex_at None)) = true /\
  trace (fire ex_props (mkTimer 1 50 RowWidthTask)
           (ex_at (Some ex_orphan_table)))
  = [ObsFired (mkTimer 1 50 RowWidthTask); ObsUncaught 1].
Proof.
  destruct (rowWidth_timer_edge_cases ex_props (mkTimer 1 50 RowWidthTask)
              (ex_at None) eq_refl) as (Hnone & _).
  destruct (rowWidth_timer_edge_cases ex_props (mkTimer 1 50 RowWidthTask)
              (ex_at (Some ex_orphan_table)) eq_refl) as (_ & Horphan).
  split.
  - apply (Hnone eq_refl).
  - apply (Horphan ex_orphan_table eq_refl eq_refl).
Defined.

Lemma mount_establishes_layout_witness :
  mount ex_props (initial 0 false (Some ex_handle) None) = Throw /\
  exists st,
    mount ex_props
      (initial 0 false (Some ex_handle) (Some (ex_table 1200 1000)))
    = Normal st /\
    pixelWidths st = [266; 266; 266] /\
    timers st = [mkTimer 1 0 ResizeKickTask].
Proof.
  split.
  - apply (proj1 (mount_establishes_layout ex_props 0 false (Some ex_handle)
                    None)).
    reflexivity.
  - destruct (proj2 (mount_establishes_layout ex_props 0 false
                       (Some ex_handle) (Some (ex_table 1200 1000)))
                (ex_table 1200 1000) eq_refl)
      as (st & Hmount & Hpw & _ & _ & Ht).
    exists st. split; [exact Hmount|]. split; [exact Hpw | exact Ht].
Defined.

Lemma mount_kick_recomputes_witness :
  (let st' := elapse ex_props 50 (elapse ex_props 0 (ex_fresh false)) in
   length (fired KRowWidth st') = 1%nat /\
   length (fired KPixelWidths st') = 1%nat /\
   useRowWidth st' = false) /\
  (let st' := elapse ex_props 50 (elapse ex_props 0 (ex_fresh true)) in
   timers st' = [] /\ fired KRowWidth st' = [] /\ useRowWidth st' = true).
Proof.
  split; cbv zeta.
  - destruct (mount_kick_recomputes ex_props 0 false (Some ex_handle)
                (ex_table 1200 1000) (ex_fresh false) 50
                (ex_fresh_mount false) ltac:(lia))
      as ((tR & HfR & _) & (tP & HfP & _) & Hu & _).
    rewrite HfR, HfP, Hu. repeat split.
  - destruct (mount_kick_recomputes ex_props 0 true (Some ex_handle)
                (ex_table 1200 1000) (ex_fresh true) 50
                (ex_fresh_mount true) ltac:(lia))
      as (Ht & HfR & _ & Hu & _).
    rewrite Ht, HfR, Hu. repeat split.
Defined.

Lemma resize_burst_defers_witness :
  let st := ex_mounted (ex_table 800 1000) in
  let st' := burst ex_props (Some (ex_table 900 1000))
               [(10, Some (ex_table 1100 1000));
                (49, Some (ex_table 1200 1000));
                (49, Some (ex_table 1300 1000))] st in
  fired KRowWidth st' = [] /\ fired KPixelWidths st' = [] /\
  useRowWidth st' = true /\ pixelWidths st' = [].
Proof.
  cbv zeta.
  destruct (resize_burst_defers ex_props (ex_mounted (ex_table 800 1000))
              (Some (ex_table 900 1000))
              [(10, Some (ex_table 1100 1000));
               (49, Some (ex_table 1200 1000));
               (49, Some (ex_table 1300 1000))])
    as (Hfr & Hfp & Hu & Hpw & _).
  - apply ex_mounted_wf.
  - reflexivity.
  - reflexivity.
  - repeat constructor; cbn; lia.
  - rewrite Hfr, Hfp, Hu, Hpw. repeat split.
Defined.

Lemma zero_rowHeight_is_unset_witness :
  calculateHeight (with_rowHeight (Some 0) ex_props)
    (fun _ _ => Some ex_row) None (QIndex 0) None
  = calculateHeight (with_rowHeight None (with_rowHeight (Some 0) ex_props))
      (fun _ _ => Some ex_row) None (QIndex 0) None.
Proof.
  apply (zero_rowHeight_is_unset (with_rowHeight (Some 0) ex_props)).
  reflexivity.
Defined.
